(** * SSHDownloader (edge_script/snapshot.py): retrying SSH session

    A shallow embedding of the [SSHDownloader] class: connection life cycle
    with retries, remote command execution with retries, remote existence
    check and size-verified download.

    The collaborators (paramiko, scp, the remote host, the local operating
    system) are not part of the program.  Their behaviour is an arbitrary
    [World]: for the n-th call of each kind it says whether the call raises
    and what it returns.  The program itself is a state-and-exception
    computation over the fields of [self], the local files and a trace of
    everything it did. *)

From Stdlib Require Import ZArith Lia Ascii String.
From stdpp Require Import gmap strings list pretty.

Local Open Scope Z_scope.

(** ** Python values *)

(** A Python [str] is a sequence of Unicode code points. *)
Definition Text := list N.

(** A string literal of the source. *)
Definition lit (s : string) : Text := N_of_ascii <$> list_ascii_of_string s.

(** [str(n)] for an [int]. *)
Definition str_of_int (n : Z) : Text := lit (pretty n).

(** [str.isspace] on one code point (CPython's [_PyUnicode_IsWhitespace]). *)
Definition isspace (c : N) : bool :=
  ((9 <=? c) && (c <=? 13) || (28 <=? c) && (c <=? 32)
   || (c =? 133) || (c =? 160) || (c =? 5760)
   || (8192 <=? c) && (c <=? 8202)
   || (c =? 8232) || (c =? 8233) || (c =? 8239) || (c =? 8287)
   || (c =? 12288))%N.

(** [str.lstrip()], [str.rstrip()] and [str.strip()] without argument. *)
Fixpoint lstrip (t : Text) : Text :=
  match t with
  | c :: t' => if isspace c then lstrip t' else t
  | [] => []
  end.

Definition rstrip (t : Text) : Text := reverse (lstrip (reverse t)).

Definition strip (t : Text) : Text := rstrip (lstrip t).

(** ** posixpath *)

Definition sep : N := 47.

(** [os.path.join(a, b)]: an absolute [b] replaces [a]; otherwise [b] is
    appended, after a separator unless [a] is empty or ends with one. *)
Definition path_join (a b : Text) : Text :=
  if bool_decide (head b = Some sep) then b
  else if bool_decide (a = []) || bool_decide (last a = Some sep) then a ++ b
  else a ++ sep :: b.

(** [os.path.basename(p)]: what follows the last separator. *)
Fixpoint basename (p : Text) : Text :=
  match p with
  | [] => []
  | c :: p' =>
      if bool_decide (sep ∈ p') then basename p'
      else if (c =? sep)%N then p' else p
  end.

(** ** stat *)

(** [stat.S_ISREG]: [S_IFMT(mode) == S_IFREG], that is
    [(mode & 0o170000) == 0o100000]. *)
Definition S_IFMT (mode : Z) : Z := Z.land mode 61440.
Definition S_ISREG (mode : Z) : bool := S_IFMT mode =? 32768.

(** ** Exceptions *)

(** The exception classes that the source and its collaborators name, with
    Python's class hierarchy.  [OtherClass] is any further class deriving
    directly from [Exception]. *)
Inductive ExcClass :=
| Exception_
| AttributeError
| EOFError
| ValueError
| UnicodeDecodeError
| OSError
| FileNotFoundError
| PermissionError
| IsADirectoryError
| ConnectionError_
| TimeoutError_
| SSHException
| AuthenticationException
| SCPException
| OtherClass (name : string).

Global Instance ExcClass_eq_dec : EqDecision ExcClass.
Proof. solve_decision. Defined.

Definition parent (c : ExcClass) : option ExcClass :=
  match c with
  | Exception_ => None
  | UnicodeDecodeError => Some ValueError
  | FileNotFoundError | PermissionError | IsADirectoryError | ConnectionError_
  | TimeoutError_ =>
      Some OSError
  | AuthenticationException => Some SSHException
  | _ => Some Exception_
  end.

Fixpoint subclass_upto (fuel : nat) (c d : ExcClass) : bool :=
  if decide (c = d) then true
  else match fuel, parent c with
       | S fuel', Some p => subclass_upto fuel' p d
       | _, _ => false
       end.

(** [issubclass(c, d)]; no chain of the hierarchy is longer than three. *)
Definition issubclass (c d : ExcClass) : bool := subclass_upto 3 c d.

(** An exception object: its class and [str(e)].  Every class above derives
    from [Exception]; [KeyboardInterrupt] and [SystemExit], which
    [except Exception] lets through, are not modelled. *)
Record exn := Exc { exc_class : ExcClass; exc_msg : Text }.

Definition isinstance (e : exn) (c : ExcClass) : bool :=
  issubclass (exc_class e) c.

(** [IOError] is an alias of [OSError] in Python 3. *)
Definition IOError : ExcClass := OSError.

(** ** The state of the program and of what it touches *)

(** A transport handle: the n-th [paramiko.SSHClient] object created. *)
Definition Handle := nat.

Inductive Level := INFO | WARNING | ERROR.

(** Everything the program does to the outside, in the trace newest first. *)
Inductive Event :=
| EvLog (lvl : Level) (msg : Text)
| EvSSHClient (h : Handle)
| EvLoadHostKeys (h : Handle)
| EvSetPolicy (h : Handle)
| EvConnect (h : Handle) (host : Text) (prt : Z) (user pw : Text)
| EvClose (h : Handle)
| EvExec (h : Handle) (command : Text)
| EvOpenSftp (h : Handle)
| EvStat (path : Text)
| EvSftpClose
| EvScpGet (h : Handle) (remote_path local_path : Text)
| EvSleep (secs : Z)
| EvRemove (path : Text).

(** The attributes of an [SSHDownloader] object. *)
Record SSHDownloader := mkSSHDownloader {
  hostname : Text;
  port : Z;
  username : Text;
  password : Text;
  max_retries : Z;
  retry_delay : Z;
  ssh_client : option Handle
}.

(** [__init__]. *)
Definition init (hostname : Text) (port : Z) (username password : Text)
    (max_retries retry_delay : Z) : SSHDownloader :=
  mkSSHDownloader hostname port username password max_retries retry_delay None.

(** [local_fs] holds the regular files of the local machine, as a map from
    path to size in bytes.  Directories are not in it: whether a local path
    is a directory is the world's to say ([local_dir] below). *)
Record State := mkState {
  self : SSHDownloader;
  local_fs : gmap Text Z;
  trace : list Event
}.

Definition set_ssh_client (c : option Handle) (s : State) : State :=
  mkState
    (mkSSHDownloader (hostname (self s)) (port (self s)) (username (self s))
       (password (self s)) (max_retries (self s)) (retry_delay (self s)) c)
    (local_fs s) (trace s).

Definition set_local_fs (fs : gmap Text Z) (s : State) : State :=
  mkState (self s) fs (trace s).

Definition add_event (ev : Event) (s : State) : State :=
  mkState (self s) (local_fs s) (ev :: trace s).

(** Counting the calls of one kind made so far. *)
Definition is_new_client (ev : Event) : bool :=
  match ev with EvSSHClient _ => true | _ => false end.
Definition is_close (ev : Event) : bool :=
  match ev with EvClose _ => true | _ => false end.
Definition is_exec (ev : Event) : bool :=
  match ev with EvExec _ _ => true | _ => false end.
Definition is_open_sftp (ev : Event) : bool :=
  match ev with EvOpenSftp _ => true | _ => false end.
Definition is_stat (ev : Event) : bool :=
  match ev with EvStat _ => true | _ => false end.
Definition is_sftp_close (ev : Event) : bool :=
  match ev with EvSftpClose => true | _ => false end.
Definition is_scp_get (ev : Event) : bool :=
  match ev with EvScpGet _ _ _ => true | _ => false end.
Definition is_sleep (ev : Event) : bool :=
  match ev with EvSleep _ => true | _ => false end.
Definition is_remove (ev : Event) : bool :=
  match ev with EvRemove _ => true | _ => false end.

Fixpoint count_ev (p : Event -> bool) (tr : list Event) : nat :=
  match tr with
  | [] => O
  | ev :: tr' => if p ev then S (count_ev p tr') else count_ev p tr'
  end.

Definition calls (p : Event -> bool) (s : State) : nat := count_ev p (trace s).

(** ** The collaborators *)

(** Every CPython 3 converts and sleeps a delay of 0 to [sleep_safe]
    seconds (the milliseconds fit in 32 bits); further out [time.sleep]
    raises [OverflowError] or [OSError], depending on version, platform and
    uptime. *)
Definition sleep_safe : Z := 4294967.

Definition negative_sleep : exn :=
  Exc ValueError (lit "sleep length must be non-negative").

(** One [exec_command] round: the call itself, [recv_exit_status()],
    [stderr.read().decode()] and [stdout.read().decode()]. *)
Record ExecOutcome := mkExec {
  ex_call : option exn;
  ex_status : exn + Z;
  ex_stderr : exn + Text;
  ex_stdout : exn + Text
}.

(** What [sftp.stat] returns: the fields the program reads. *)
Record SFTPAttributes := mkAttr { st_mode : Z; st_size : Z }.

(** One [SCPClient(...).get(remote, local)]: what it leaves at the local
    path ([None]: nothing written there, [Some n]: a regular file of [n]
    bytes) and whether it raises. *)
Record ScpOutcome := mkScp {
  scp_written : option Z;
  scp_raises : option exn
}.

(** The behaviour of the outside world, call by call. *)
Record World := mkWorld {
  load_keys_result : Handle -> option exn;
  connect_result : Handle -> option exn;
  close_result : nat -> option exn;
  exec_result : nat -> ExecOutcome;
  open_sftp_result : nat -> option exn;
  stat_result : nat -> Text -> exn + SFTPAttributes;
  sftp_close_result : nat -> option exn;
  scp_result : nat -> ScpOutcome;
  (** A local path that is a directory: what [os.path.getsize] reports for
      it and what [os.remove] raises on it ([IsADirectoryError] on Linux,
      [PermissionError] elsewhere). *)
  local_dir : Text -> option (Z * exn);
  (** The n-th [os.remove] of a regular file: whether it raises. *)
  remove_result : nat -> option exn;
  (** When the local path is a directory, [scp.get] stores the file inside
      it, under the name the remote side sends: that name and the size of
      the file stored by the n-th copy, if any. *)
  scp_inside : nat -> option (Text * Z);
  (** [time.sleep] for a delay beyond [sleep_safe] seconds either way: what
      it raises, if the platform refuses the delay. *)
  far_sleep_result : Z -> option exn
}.

(** ** Computations: state and exceptions *)

Inductive Result (A : Type) :=
| Ret (a : A)
| Raise (e : exn).
Arguments Ret {A} a.
Arguments Raise {A} e.

Definition M (A : Type) : Type := State -> Result A * State.

Definition ret {A} (a : A) : M A := fun s => (Ret a, s).

Definition raise {A} (e : exn) : M A := fun s => (Raise e, s).

Definition bind {A B} (m : M A) (k : A -> M B) : M B :=
  fun s =>
    match m s with
    | (Ret a, s') => k a s'
    | (Raise e, s') => (Raise e, s')
    end.

Notation "x <- m ;; k" := (bind m (fun x => k))
  (at level 100, m at next level, right associativity).
Notation "m ;; k" := (bind m (fun _ => k))
  (at level 100, right associativity).

(** [try: m except c as e: h e]. *)
Definition try_except {A} (c : ExcClass) (m : M A) (h : exn -> M A) : M A :=
  fun s =>
    match m s with
    | (Raise e, s') => if isinstance e c then h e s' else (Raise e, s')
    | r => r
    end.

(** [try: m except c1 as e: h1 e except c2 as e: h2 e]: the first clause
    whose class matches handles the exception, and what a handler raises is
    not handled by the other clause. *)
Definition try_except2 {A} (m : M A)
    (c1 : ExcClass) (h1 : exn -> M A) (c2 : ExcClass) (h2 : exn -> M A) : M A :=
  fun s =>
    match m s with
    | (Raise e, s') =>
        if isinstance e c1 then h1 e s'
        else if isinstance e c2 then h2 e s'
        else (Raise e, s')
    | r => r
    end.

(** [try: m finally: f]; an exception of [f] replaces the outcome of [m]. *)
Definition try_finally {A} (m : M A) (f : M unit) : M A :=
  fun s =>
    match m s with
    | (r, s') =>
        match f s' with
        | (Ret _, s'') => (r, s'')
        | (Raise e, s'') => (Raise e, s'')
        end
    end.

Definition get_self : M SSHDownloader := fun s => (Ret (self s), s).

Definition emit (ev : Event) : M unit := fun s => (Ret tt, add_event ev s).

Definition log (lvl : Level) (msg : Text) : M unit := emit (EvLog lvl msg).

(** A call that returns nothing and may raise. *)
Definition outcome (o : option exn) : M unit :=
  match o with
  | None => ret tt
  | Some e => raise e
  end.

(** A call that returns a value or raises. *)
Definition outcome_of {A} (o : exn + A) : M A :=
  match o with
  | inr a => ret a
  | inl e => raise e
  end.

(** Attribute access on [self.ssh_client] when it is [None]. *)
Definition none_has_no (attr : string) : exn :=
  Exc AttributeError
    (lit "'NoneType' object has no attribute '" ++ lit attr ++ lit "'").

Section Program.

Variable W : World.

(** [time.sleep(secs)]: a delay the platform cannot take raises what the
    world says, a negative one raises [ValueError]; nothing is slept then. *)
Definition sleep (secs : Z) : M unit :=
  match (if (secs <? - sleep_safe) || (sleep_safe <? secs)
         then far_sleep_result W secs else None) with
  | Some e => raise e
  | None => if secs <? 0 then raise negative_sleep else emit (EvSleep secs)
  end.

(** ** close *)

(** [self.ssh_client.close()] on a handle. *)
Definition client_close (h : Handle) : M unit :=
  fun s => (emit (EvClose h) ;; outcome (close_result W (calls is_close s))) s.

Definition close : M unit :=
  me <- get_self ;;
  match ssh_client me with
  | Some h =>
      try_finally
        (try_except Exception_
           (client_close h ;;
            log INFO (lit "SSH connection closed"))
           (fun e =>
              log ERROR (lit "Error closing SSH connection: " ++ exc_msg e)))
        (fun s => (Ret tt, set_ssh_client None s))
  | None => ret tt
  end.

(** ** connect *)

(** [self.ssh_client = paramiko.SSHClient()]. *)
Definition new_client : M Handle :=
  fun s =>
    let h := calls is_new_client s in
    (Ret h, set_ssh_client (Some h) (add_event (EvSSHClient h) s)).

Definition load_system_host_keys (h : Handle) : M unit :=
  emit (EvLoadHostKeys h) ;; outcome (load_keys_result W h).

Definition set_missing_host_key_policy (h : Handle) : M unit :=
  emit (EvSetPolicy h).

Definition client_connect (h : Handle) : M unit :=
  me <- get_self ;;
  emit (EvConnect h (hostname me) (port me) (username me) (password me)) ;;
  outcome (connect_result W h).

(** The body of the [try] of one attempt; [Some tt] stands for [return]. *)
Definition connect_try (attempt : Z) : M (option unit) :=
  me <- get_self ;;
  log INFO (lit "Attempting SSH connection (attempt " ++ str_of_int attempt
            ++ lit "/" ++ str_of_int (max_retries me) ++ lit ")") ;;
  h <- new_client ;;
  load_system_host_keys h ;;
  set_missing_host_key_policy h ;;
  client_connect h ;;
  log INFO (lit "SSH connection established successfully") ;;
  ret (Some tt).

(** One iteration of the [for] loop: [None] goes on to the next attempt. *)
Definition connect_iter (attempt : Z) : M (option unit) :=
  try_except Exception_ (connect_try attempt)
    (fun e =>
       me <- get_self ;;
       log ERROR (lit "SSH connection failed (attempt " ++ str_of_int attempt
                  ++ lit "): " ++ exc_msg e) ;;
       if attempt =? max_retries me then raise e
       else
         sleep (retry_delay me) ;;
         close ;;
         ret None).

(** [for attempt in range(attempt, attempt + n)]. *)
Fixpoint connect_loop (n : nat) (attempt : Z) : M unit :=
  match n with
  | O => ret tt
  | S n' =>
      r <- connect_iter attempt ;;
      match r with
      | Some _ => ret tt
      | None => connect_loop n' (attempt + 1)
      end
  end.

Definition connect : M unit :=
  me <- get_self ;;
  connect_loop (Z.to_nat (max_retries me)) 1.

(** ** execute_command *)

(** [self.ssh_client.exec_command(command, timeout=60)]. *)
Definition exec_command (command : Text) : M ExecOutcome :=
  me <- get_self ;;
  match ssh_client me with
  | None => raise (none_has_no "exec_command")
  | Some h =>
      fun s =>
        let o := exec_result W (calls is_exec s) in
        (emit (EvExec h command) ;; outcome (ex_call o) ;; ret o) s
  end.

(** Truth value of a [str]. *)
Definition nonempty (t : Text) : bool :=
  match t with [] => false | _ => true end.

(** The body of the [try] of one attempt; [Some v] stands for [return v]. *)
Definition execute_try (attempt : Z) (command : Text) : M (option (option Text)) :=
  log INFO (lit "Executing command (attempt " ++ str_of_int attempt
            ++ lit "): " ++ command) ;;
  o <- exec_command command ;;
  exit_status <- outcome_of (ex_status o) ;;
  raw_errors <- outcome_of (ex_stderr o) ;;
  let errors := strip raw_errors in
  (if nonempty errors
   then log WARNING (lit "Command produced stderr output: " ++ errors)
   else ret tt) ;;
  if negb (exit_status =? 0)
  then raise (Exc Exception_
                (lit "Command failed with exit status " ++ str_of_int exit_status))
  else
    raw_output <- outcome_of (ex_stdout o) ;;
    let output := strip raw_output in
    ret (Some (if nonempty output then Some output else None)).

Definition execute_iter (attempt : Z) (command : Text) : M (option (option Text)) :=
  try_except Exception_ (execute_try attempt command)
    (fun e =>
       me <- get_self ;;
       log ERROR (lit "Command execution failed (attempt " ++ str_of_int attempt
                  ++ lit "): " ++ exc_msg e) ;;
       if attempt =? max_retries me then raise e
       else
         sleep (retry_delay me) ;;
         ret None).

(** The [for] loop; falling out of it the function returns [None]. *)
Fixpoint execute_loop (n : nat) (attempt : Z) (command : Text) : M (option Text) :=
  match n with
  | O => ret None
  | S n' =>
      r <- execute_iter attempt command ;;
      match r with
      | Some v => ret v
      | None => execute_loop n' (attempt + 1) command
      end
  end.

Definition execute_command (command : Text) : M (option Text) :=
  me <- get_self ;;
  execute_loop (Z.to_nat (max_retries me)) 1 command.

(** ** remote_file_exists *)

(** [self.ssh_client.open_sftp()]. *)
Definition open_sftp : M unit :=
  me <- get_self ;;
  match ssh_client me with
  | None => raise (none_has_no "open_sftp")
  | Some h =>
      fun s =>
        (emit (EvOpenSftp h) ;;
         outcome (open_sftp_result W (calls is_open_sftp s))) s
  end.

Definition sftp_stat (path : Text) : M SFTPAttributes :=
  fun s =>
    (emit (EvStat path) ;; outcome_of (stat_result W (calls is_stat s) path)) s.

Definition sftp_close : M unit :=
  fun s =>
    (emit EvSftpClose ;;
     outcome (sftp_close_result W (calls is_sftp_close s))) s.

Definition remote_file_exists (remote_path : Text) : M bool :=
  try_except Exception_
    (open_sftp ;;
     try_finally
       (try_except IOError
          (file_stat <- sftp_stat remote_path ;;
           ret (S_ISREG (st_mode file_stat)))
          (fun _ => ret false))
       sftp_close)
    (fun e =>
       log ERROR (lit "Error checking remote file existence: " ++ exc_msg e) ;;
       ret false).

(** ** download_file *)

(** The local files once the n-th [scp.get] to [local_path] has run: the
    file is left at [local_path], or else, when [local_path] is a directory,
    inside it under the name the remote side sent. *)
Definition stored (n : nat) (local_path : Text) (fs : gmap Text Z) : gmap Text Z :=
  match scp_written (scp_result W n) with
  | Some size => <[local_path := size]> fs
  | None =>
      match local_dir W local_path, scp_inside W n with
      | Some _, Some (name, size) => <[path_join local_path name := size]> fs
      | _, _ => fs
      end
  end.

(** [with SCPClient(self.ssh_client.get_transport(), socket_timeout=60) as scp:
    scp.get(remote_path, local_path=local_path)]. *)
Definition scp_get (remote_path local_path : Text) : M unit :=
  me <- get_self ;;
  match ssh_client me with
  | None => raise (none_has_no "get_transport")
  | Some h =>
      fun s =>
        let n := calls is_scp_get s in
        (emit (EvScpGet h remote_path local_path) ;;
         (fun s1 => (Ret tt, set_local_fs (stored n local_path (local_fs s1)) s1)) ;;
         outcome (scp_raises (scp_result W n))) s
  end.

(** [os.path.exists], [os.path.getsize] and [os.remove]: on a regular file,
    and on a directory. *)
Definition path_exists (path : Text) : M bool :=
  fun s =>
    (Ret (bool_decide (is_Some (local_fs s !! path))
          || bool_decide (is_Some (local_dir W path))), s).

Definition no_such_file (path : Text) : exn :=
  Exc FileNotFoundError
    (lit "[Errno 2] No such file or directory: '" ++ path ++ lit "'").

Definition getsize (path : Text) : M Z :=
  fun s =>
    match local_fs s !! path, local_dir W path with
    | Some n, _ => (Ret n, s)
    | None, Some (n, _) => (Ret n, s)
    | None, None => (Raise (no_such_file path), s)
    end.

Definition os_remove (path : Text) : M unit :=
  fun s =>
    match local_fs s !! path, local_dir W path with
    | Some _, _ =>
        match remove_result W (calls is_remove s) with
        | None =>
            (Ret tt,
             set_local_fs (delete path (local_fs s)) (add_event (EvRemove path) s))
        | Some e => (Raise e, add_event (EvRemove path) s)
        end
    | None, Some (_, e) => (Raise e, add_event (EvRemove path) s)
    | None, None => (Raise (no_such_file path), s)
    end.

(** The verification of the local file after a transfer: [true] is the
    [return True] of the source. *)
Definition verify (local_path : Text) (remote_size : Z) : M bool :=
  ex <- path_exists local_path ;;
  if ex then
    local_size <- getsize local_path ;;
    if local_size =? remote_size then
      log INFO (lit "Download completed and verified successfully") ;;
      ret true
    else
      log ERROR (lit "File size mismatch: remote=" ++ str_of_int remote_size
                 ++ lit ", local=" ++ str_of_int local_size) ;;
      os_remove local_path ;;
      ret false
  else
    log ERROR (lit "Downloaded file not found at local path") ;;
    ret false.

(** The transfer of one attempt and its verification: the [try] body down
    to the end of the [if os.path.exists(local_path)] statement. *)
Definition download_attempt (attempt : Z) (remote_path local_path : Text)
    : M bool :=
  log INFO (lit "Attempting download (attempt " ++ str_of_int attempt
            ++ lit "): " ++ remote_path ++ lit " -> " ++ local_path) ;;
  open_sftp ;;
  file_stat <- sftp_stat remote_path ;;
  let remote_size := st_size file_stat in
  sftp_close ;;
  scp_get remote_path local_path ;;
  verify local_path remote_size.

(** The body of the [try] of one attempt; [Some b] stands for [return b]. *)
Definition download_try (attempt : Z) (remote_path local_path : Text)
    : M (option bool) :=
  ok <- download_attempt attempt remote_path local_path ;;
  if ok then ret (Some true)
  else
    me <- get_self ;;
    if attempt =? max_retries me then ret (Some false)
    else
      sleep (retry_delay me) ;;
      ret None.

Definition download_iter (attempt : Z) (remote_path local_path : Text)
    : M (option bool) :=
  try_except2 (download_try attempt remote_path local_path)
    SCPException
    (fun e =>
       me <- get_self ;;
       log ERROR (lit "SCP download failed (attempt " ++ str_of_int attempt
                  ++ lit "): " ++ exc_msg e) ;;
       if attempt =? max_retries me then raise e
       else
         sleep (retry_delay me) ;;
         ret None)
    Exception_
    (fun e =>
       me <- get_self ;;
       log ERROR (lit "Download failed (attempt " ++ str_of_int attempt
                  ++ lit "): " ++ exc_msg e) ;;
       if attempt =? max_retries me then raise e
       else
         sleep (retry_delay me) ;;
         ret None).

(** The [for] loop and the [return False] after it. *)
Fixpoint download_loop (n : nat) (attempt : Z) (remote_path local_path : Text)
    : M bool :=
  match n with
  | O => ret false
  | S n' =>
      r <- download_iter attempt remote_path local_path ;;
      match r with
      | Some b => ret b
      | None => download_loop n' (attempt + 1) remote_path local_path
      end
  end.

Definition download_file (remote_path local_path : Text) : M bool :=
  ex <- remote_file_exists remote_path ;;
  if negb ex then
    log ERROR (lit "Remote file does not exist: " ++ remote_path) ;;
    ret false
  else
    me <- get_self ;;
    download_loop (Z.to_nat (max_retries me)) 1 remote_path local_path.

End Program.

(** * Vocabulary of the statements *)

(** ** Stripped text *)

Definition all_space (t : Text) : Prop := Forall (λ c, isspace c = true) t.

(** [t] is [raw] without its leading and trailing whitespace. *)
Definition trimmed (raw t : Text) : Prop :=
  ∃ pre post,
    raw = pre ++ t ++ post
    ∧ all_space pre ∧ all_space post
    ∧ (∀ c, head t = Some c → isspace c = false)
    ∧ (∀ c, last t = Some c → isspace c = false).

(** ** Sessions and connection attempts *)

(** The attributes as [__init__] sets them, for the configuration of [me]. *)
Definition disconnected (me : SSHDownloader) : SSHDownloader :=
  init (hostname me) (port me) (username me) (password me)
       (max_retries me) (retry_delay me).

(** The trace after [close()]: the shutdown is attempted when a handle
    exists, and its outcome is logged. *)
Definition close_trace (W : World) (s : State) : list Event :=
  match ssh_client (self s) with
  | None => trace s
  | Some h =>
      match close_result W (calls is_close s) with
      | None => EvLog INFO (lit "SSH connection closed") :: EvClose h :: trace s
      | Some e =>
          EvLog ERROR (lit "Error closing SSH connection: " ++ exc_msg e)
            :: EvClose h :: trace s
      end
  end.

(** A delay [time.sleep] takes on every platform. *)
Definition sleepable (secs : Z) : Prop := 0 ≤ secs ≤ sleep_safe.

(** [me] with [ssh_client] set to [c]. *)
Definition with_client (c : option Handle) (me : SSHDownloader) : SSHDownloader :=
  self (set_ssh_client c (mkState me ∅ [])).

(** What the attempt that creates handle [h] raises, if it fails. *)
Definition conn_failure (W : World) (h : Handle) : option exn :=
  match load_keys_result W h with
  | Some e => Some e
  | None => connect_result W h
  end.

(** ** Command attempts *)

(** The exception the source builds for an exit status other than 0. *)
Definition command_failed (exit_status : Z) : exn :=
  Exc Exception_
    (lit "Command failed with exit status " ++ str_of_int exit_status).

(** What one [exec_command] round amounts to for the program: the value the
    attempt returns, or the exception that ends it. *)
Definition exec_attempt (o : ExecOutcome) : exn + option Text :=
  match ex_call o, ex_status o, ex_stderr o with
  | Some e, _, _ => inl e
  | None, inl e, _ => inl e
  | None, inr _, inl e => inl e
  | None, inr exit_status, inr _ =>
      if exit_status =? 0 then
        match ex_stdout o with
        | inl e => inl e
        | inr out => inr (if nonempty (strip out) then Some (strip out) else None)
        end
      else inl (command_failed exit_status)
  end.

Definition is_inl {A B} (x : A + B) : Prop :=
  match x with inl _ => True | inr _ => False end.

(** ** remote_file_exists and download_file, attempt by attempt *)

(** What the existence check answers, read off the world. *)
Definition exists_outcome (W : World) (remote_path : Text) (s : State) : bool :=
  match ssh_client (self s),
        open_sftp_result W (calls is_open_sftp s),
        stat_result W (calls is_stat s) remote_path,
        sftp_close_result W (calls is_sftp_close s) with
  | Some _, None, inr attr, None => S_ISREG (st_mode attr)
  | _, _, _, _ => false
  end.

Inductive AttemptOutcome :=
| Verified
| VerificationFailed
| TransferRaised (e : exn).

(** What the verification of an attempt finds at the local path once the
    copy has run: a regular file of the size [stat] reported, one of another
    size, which is removed unless [os.remove] raises, a directory, or
    nothing. *)
Definition verdict (W : World) (local_path : Text) (remote_size : Z)
    (fs : gmap Text Z) (removes : nat) : AttemptOutcome :=
  match fs !! local_path, local_dir W local_path with
  | Some n, _ =>
      if n =? remote_size then Verified
      else match remove_result W removes with
           | Some e => TransferRaised e
           | None => VerificationFailed
           end
  | None, Some (n, e) => if n =? remote_size then Verified else TransferRaised e
  | None, None => VerificationFailed
  end.

(** The local files once the verification is over. *)
Definition after_verify (W : World) (local_path : Text) (remote_size : Z)
    (fs : gmap Text Z) (removes : nat) : gmap Text Z :=
  match fs !! local_path with
  | Some n =>
      if n =? remote_size then fs
      else match remove_result W removes with
           | Some _ => fs
           | None => delete local_path fs
           end
  | None => fs
  end.

(** [os.path.getsize(local_path)] is [size]: a regular file of that size is
    there, or no file but a directory for which that size is reported. *)
Definition getsize_is (W : World) (local_path : Text) (size : Z)
    (fs : gmap Text Z) : Prop :=
  fs !! local_path = Some size
  ∨ (fs !! local_path = None ∧ ∃ e, local_dir W local_path = Some (size, e)).

Definition verification (W : World) (local_path : Text) (remote_size : Z)
    (s : State) : AttemptOutcome :=
  verdict W local_path remote_size
    (stored W (calls is_scp_get s) local_path (local_fs s)) (calls is_remove s).

(** How a download attempt started in [s] ends, read off the world. *)
Definition attempt_outcome (W : World) (remote_path local_path : Text)
    (s : State) : AttemptOutcome :=
  match ssh_client (self s) with
  | None => TransferRaised (none_has_no "open_sftp")
  | Some _ =>
      match open_sftp_result W (calls is_open_sftp s),
            stat_result W (calls is_stat s) remote_path,
            sftp_close_result W (calls is_sftp_close s),
            scp_raises (scp_result W (calls is_scp_get s)) with
      | Some e, _, _, _ => TransferRaised e
      | None, inl e, _, _ => TransferRaised e
      | None, inr _, Some e, _ => TransferRaised e
      | None, inr _, None, Some e => TransferRaised e
      | None, inr attr, None, None => verification W local_path (st_size attr) s
      end
  end.

Definition attempt_result (o : AttemptOutcome) : Result bool :=
  match o with
  | Verified => Ret true
  | VerificationFailed => Ret false
  | TransferRaised e => Raise e
  end.

(** The state in which attempt [attempt + k] starts when the loop was entered
    in [s] at [attempt]. *)
Fixpoint attempt_state (W : World) (remote_path local_path : Text)
    (k : nat) (attempt : Z) (s : State) : State :=
  match k with
  | O => s
  | S k' =>
      attempt_state W remote_path local_path k' (attempt + 1)
        (snd (download_iter W attempt remote_path local_path s))
  end.

(** What one iteration of the download loop does with the outcome of its
    attempt; [last] says whether [attempt == self.max_retries]. *)
Definition iter_result (last : bool) (o : AttemptOutcome)
    : Result (option bool) :=
  match o with
  | Verified => Ret (Some true)
  | VerificationFailed => if last then Ret (Some false) else Ret None
  | TransferRaised e => if last then Raise e else Ret None
  end.

(** ** Concrete worlds and sessions *)

(** A world where every call succeeds: commands exit with status 0 and print
    [ok], the remote path is a regular file (mode 0o100644) of 10 bytes, and
    the copy writes 10 bytes. *)
Definition calm : World :=
  mkWorld (fun _ => None) (fun _ => None) (fun _ => None)
    (fun _ => mkExec None (inr 0) (inr []) (inr (lit "ok")))
    (fun _ => None) (fun _ _ => inr (mkAttr 33188 10)) (fun _ => None)
    (fun _ => mkScp (Some 10) None)
    (fun _ => None) (fun _ => None) (fun _ => None) (fun _ => None).

Definition with_connect (f : Handle -> option exn) (W : World) : World :=
  mkWorld (load_keys_result W) f (close_result W) (exec_result W)
    (open_sftp_result W) (stat_result W) (sftp_close_result W) (scp_result W)
    (local_dir W) (remove_result W) (scp_inside W) (far_sleep_result W).

Definition with_close (f : nat -> option exn) (W : World) : World :=
  mkWorld (load_keys_result W) (connect_result W) f (exec_result W)
    (open_sftp_result W) (stat_result W) (sftp_close_result W) (scp_result W)
    (local_dir W) (remove_result W) (scp_inside W) (far_sleep_result W).

Definition with_exec (f : nat -> ExecOutcome) (W : World) : World :=
  mkWorld (load_keys_result W) (connect_result W) (close_result W) f
    (open_sftp_result W) (stat_result W) (sftp_close_result W) (scp_result W)
    (local_dir W) (remove_result W) (scp_inside W) (far_sleep_result W).

Definition with_stat (f : nat -> Text -> exn + SFTPAttributes) (W : World) : World :=
  mkWorld (load_keys_result W) (connect_result W) (close_result W) (exec_result W)
    (open_sftp_result W) f (sftp_close_result W) (scp_result W)
    (local_dir W) (remove_result W) (scp_inside W) (far_sleep_result W).

Definition with_scp (f : nat -> ScpOutcome) (W : World) : World :=
  mkWorld (load_keys_result W) (connect_result W) (close_result W) (exec_result W)
    (open_sftp_result W) (stat_result W) (sftp_close_result W) f
    (local_dir W) (remove_result W) (scp_inside W) (far_sleep_result W).







(** The host refuses the first two connections. *)
Definition flaky : World :=
  with_connect
    (fun h => if (h <? 2)%nat
              then Some (Exc SSHException (lit "Unable to connect to port 22"))
              else None)
    calm.

(** The host rejects the password, every time. *)
Definition refusing : World :=
  with_connect
    (fun _ => Some (Exc AuthenticationException (lit "Authentication failed.")))
    calm.

(** Shutting the transport down fails. *)
Definition stuck : World :=
  with_close (fun _ => Some (Exc EOFError (lit "transport is gone"))) calm.

(** Commands exit with status 1. *)
Definition failing : World :=
  with_exec (fun _ => mkExec None (inr 1) (inr []) (inr [])) calm.

(** Commands succeed, write to stderr and pad their output. *)
Definition noisy : World :=
  with_exec
    (fun _ => mkExec None (inr 0) (inr (lit " deprecated ")) (inr (lit "  ok ")))
    calm.

(** The first command times out, the second succeeds as in [noisy]. *)
Definition slow_then_noisy : World :=
  with_exec
    (fun n => match n with
              | O => mkExec (Some (Exc TimeoutError_ (lit "timed out")))
                       (inr 0) (inr []) (inr [])
              | _ => exec_result noisy n
              end)
    calm.

(** The remote path does not exist. *)
Definition missing : World :=
  with_stat (fun _ _ => inl (Exc FileNotFoundError (lit "[Errno 2] No such file")))
    calm.

(** The remote path is a directory (mode 0o40755). *)
Definition directory : World :=
  with_stat (fun _ _ => inr (mkAttr 16877 4096)) calm.


(** The copy delivers 4 of the 10 bytes and then the socket times out. *)
Definition dropping : World :=
  with_scp
    (fun _ => mkScp (Some 4)
                (Some (Exc SCPException (lit "Error receiving, socket.timeout"))))
    calm.

(** A session just constructed, and one holding handle 0. *)
Definition fresh (n : Z) : State :=
  mkState (init (lit "192.168.0.105") 22 (lit "pi") (lit "raspberry") n 5) ∅ [].

Definition connected (n : Z) : State :=
  set_ssh_client (Some O) (add_event (EvSSHClient O) (fresh n)).

(** The same two sessions, constructed with [retry_delay = -1]. *)
Definition hasty (n : Z) : State :=
  mkState (init (lit "192.168.0.105") 22 (lit "pi") (lit "raspberry") n (-1)) ∅ [].

Definition hasty_connected (n : Z) : State :=
  set_ssh_client (Some O) (add_event (EvSSHClient O) (hasty n)).

Definition remote_jpg : Text := lit "/home/pi/C250416_v0.1/left/C250416_v0.1_1_left.jpg".
Definition local_jpg : Text := lit "./downloaded_images/v0.1/C250416_v0.1/left/C250416_v0.1_1_left.jpg".

(** ** Error types *)

(** The error types of the specification's taxonomy.  The source defines no
    exception class; [ConnectionError] is also the name of a Python builtin,
    a subclass of [OSError]. *)
Inductive Operation := OpConnect | OpExecute | OpDownload.

Definition taxonomy (op : Operation) : list ExcClass :=
  match op with
  | OpConnect => [ConnectionError_; OtherClass "ConnectionError"]
  | OpExecute => [OtherClass "CommandError"]
  | OpDownload => [OtherClass "TransferError"]
  end.

(** [e] is of the type the taxonomy names for [op]. *)
Definition in_taxonomy (op : Operation) (e : exn) : bool :=
  existsb (isinstance e) (taxonomy op).

(** * The context manager and main *)

(** ** What main asks of the local machine *)

(** The clock and the directory tree of the local machine: [int(time.time())]
    and, for the n-th [os.makedirs(path, exist_ok=True)] of a run, whether it
    raises.  The directories it makes are not part of [local_fs]. *)
Record Host := mkHost {
  time_now : Z;
  makedirs_result : nat -> Text -> option exn
}.

(** The [config] dictionary of [main]. *)
Record Config := mkConfig {
  cfg_hostname : Text;
  cfg_port : Z;
  cfg_username : Text;
  cfg_password : Text;
  cfg_unique_id : Text;
  cfg_max_retries : Z;
  cfg_retry_delay : Z;
  cfg_command_delay : Z
}.

Definition config : Config :=
  mkConfig (lit "192.168.0.105") 22 (lit "pi") (lit "...") (lit "C250416_v0.1")
    5 10 15.

Section Orchestration.

Variable W : World.

(** ** __enter__, __exit__ and the with statement *)

Definition __enter__ : M SSHDownloader :=
  connect W ;;
  get_self.

(** The three arguments of [__exit__] are not used; it returns [None]. *)
Definition __exit__ (exc : option exn) : M unit :=
  close W.

(** [with <self> as downloader: body].  [__exit__] runs when the body was
    entered, however it ends; as its result is [None], an exception of the
    body is raised again after it. *)
Definition with_downloader {A} (body : M A) : M A :=
  __enter__ ;;
  fun s =>
    match body s with
    | (r, s') =>
        match __exit__ (match r with Raise e => Some e | Ret _ => None end) s' with
        | (Ret _, s'') => (r, s'')
        | (Raise e, s'') => (Raise e, s'')
        end
    end.

(** ** main *)

(** [SSHDownloader(...)]: the object [main] works with from here on. *)
Definition construct (me : SSHDownloader) : M unit :=
  fun s => (Ret tt, mkState me (local_fs s) (trace s)).

Definition os_makedirs (host : Host) (n : nat) (path : Text) : M unit :=
  outcome (makedirs_result host n path).

Definition base_local_dir : Text :=
  path_join (lit "./downloaded_images/v0.1") (cfg_unique_id config).

Definition remote_file_of (epoch : Z) (side : Text) : Text :=
  let remote_dir := lit "/home/pi/" ++ cfg_unique_id config ++ lit "/" ++ side in
  remote_dir ++ lit "/" ++ cfg_unique_id config ++ lit "_" ++ str_of_int epoch
    ++ lit "_" ++ side ++ lit ".jpg".

Definition local_file_of (epoch : Z) (side : Text) : Text :=
  let local_subdir := path_join base_local_dir side in
  path_join local_subdir (basename (remote_file_of epoch side)).

(** The body of [for side in ...]; [n] counts the [os.makedirs] calls made so
    far, [success] is the variable of that name. *)
Definition download_side (host : Host) (epoch : Z) (n : nat) (side : Text)
    (success : bool) : M bool :=
  let remote_file := remote_file_of epoch side in
  let local_subdir := path_join base_local_dir side in
  let local_file := local_file_of epoch side in
  os_makedirs host n local_subdir ;;
  ok <- download_file W remote_file local_file ;;
  if negb ok then
    log ERROR (lit "Failed to download " ++ remote_file) ;;
    ret false
  else
    log INFO (lit "Successfully downloaded " ++ remote_file) ;;
    ret success.

Fixpoint for_sides (host : Host) (epoch : Z) (n : nat) (sides : list Text)
    (success : bool) : M bool :=
  match sides with
  | [] => ret success
  | side :: rest =>
      success' <- download_side host epoch n side success ;;
      for_sides host epoch (S n) rest success'
  end.

(** The block of the [with] statement. *)
Definition snapshot_session (host : Host) (epoch : Z) : M unit :=
  log INFO (lit "Executing snapshot script...") ;;
  execute_command W
    (lit "bash /home/pi/take_snap_shot.bash " ++ str_of_int epoch ++ lit " "
     ++ cfg_unique_id config) ;;
  sleep W (cfg_command_delay config) ;;
  success <- for_sides host epoch 2 [lit "left"; lit "right"] true ;;
  if success then log INFO (lit "All images downloaded successfully")
  else log ERROR (lit "Some images failed to download").

Definition main (host : Host) : M unit :=
  os_makedirs host 0 (path_join base_local_dir (lit "left")) ;;
  os_makedirs host 1 (path_join base_local_dir (lit "right")) ;;
  let epoch := time_now host in
  try_except Exception_
    (construct (init (cfg_hostname config) (cfg_port config)
                  (cfg_username config) (cfg_password config)
                  (cfg_max_retries config) (cfg_retry_delay config)) ;;
     with_downloader (snapshot_session host epoch))
    (fun e =>
       log ERROR (lit "Critical error in main process: " ++ exc_msg e) ;;
       raise e).

End Orchestration.

(** The local machine at epoch 1700000000, where every directory can be
    made. *)
Definition quiet_host : Host := mkHost 1700000000 (fun _ _ => None).

(** ** Footprints: what an operation may touch *)

(** The trace [tr'] is [tr] with events added, all of them in [E]. *)
Definition grows (E : Event -> bool) (tr tr' : list Event) : Prop :=
  ∃ added, tr' = added ++ tr ∧ Forall (λ ev, E ev = true) added.

(** The configuration is the same; [ssh_client] may differ. *)
Definition same_config (me me' : SSHDownloader) : Prop :=
  hostname me' = hostname me ∧ port me' = port me
  ∧ username me' = username me ∧ password me' = password me
  ∧ max_retries me' = max_retries me ∧ retry_delay me' = retry_delay me.

(** The local files are the same, except perhaps those at the paths in
    [P]. *)
Definition agree_outside (P : Text -> Prop) (fs fs' : gmap Text Z) : Prop :=
  ∀ p, ¬ P p → fs' !! p = fs !! p.

(** Where a download to [l] may leave a file: at [l], or, when [l] is a
    directory, inside it under a name the remote side sent. *)
Definition stores_at (W : World) (l p : Text) : Prop :=
  p = l
  ∨ ∃ n name size,
      is_Some (local_dir W l) ∧ scp_inside W n = Some (name, size)
      ∧ p = path_join l name.

(** From [s] to [s']: the object changed within [F], the local files within
    [G], and the events added to the trace are in [E]. *)
Definition footprint (E : Event -> bool) (F : relation SSHDownloader)
    (G : relation (gmap Text Z)) (s s' : State) : Prop :=
  F (self s) (self s') ∧ G (local_fs s) (local_fs s')
  ∧ grows E (trace s) (trace s').

(** Whatever the starting state, running [m] stays within [R]. *)
Definition respects {A} (R : relation State) (m : M A) : Prop :=
  ∀ s, R s (snd (m s)).

(** The events of each operation. *)
Definition connect_events (ev : Event) : bool :=
  match ev with
  | EvLog _ _ | EvSSHClient _ | EvLoadHostKeys _ | EvSetPolicy _
  | EvConnect _ _ _ _ _ | EvClose _ | EvSleep _ => true
  | _ => false
  end.

Definition command_events (command : Text) (ev : Event) : bool :=
  match ev with
  | EvLog _ _ | EvSleep _ => true
  | EvExec _ c => bool_decide (c = command)
  | _ => false
  end.

Definition check_events (remote_path : Text) (ev : Event) : bool :=
  match ev with
  | EvLog _ _ | EvOpenSftp _ | EvSftpClose => true
  | EvStat p => bool_decide (p = remote_path)
  | _ => false
  end.

Definition download_events (remote_path local_path : Text) (ev : Event) : bool :=
  match ev with
  | EvLog _ _ | EvOpenSftp _ | EvSftpClose | EvSleep _ => true
  | EvStat p => bool_decide (p = remote_path)
  | EvScpGet _ r l => bool_decide (r = remote_path) && bool_decide (l = local_path)
  | EvRemove p => bool_decide (p = local_path)
  | _ => false
  end.

(** What the block of [main]'s [with] statement may emit: everything but
    the making and the closing of clients. *)
Definition session_events (ev : Event) : bool :=
  match ev with
  | EvSSHClient _ | EvLoadHostKeys _ | EvSetPolicy _ | EvConnect _ _ _ _ _
  | EvClose _ => false
  | _ => true
  end.

(** The durations of the sleeps in a trace, newest first. *)
Definition sleeps (tr : list Event) : list Z :=
  omap (λ ev, match ev with EvSleep secs => Some secs | _ => None end) tr.

(** No constraint on the local files. *)
Definition any_files (fs fs' : gmap Text Z) : Prop := True.

(** The object [main] constructs, and the state once it exists. *)
Definition main_downloader : SSHDownloader :=
  init (cfg_hostname config) (cfg_port config) (cfg_username config)
    (cfg_password config) (cfg_max_retries config) (cfg_retry_delay config).

Definition main_start (s : State) : State :=
  mkState main_downloader (local_fs s) (trace s).

(** The command [main] runs at a given epoch. *)
Definition snapshot_command (epoch : Z) : Text :=
  lit "bash /home/pi/take_snap_shot.bash " ++ str_of_int epoch ++ lit " "
  ++ cfg_unique_id config.


(** The handles closed in a trace, newest first. *)
Definition closed (tr : list Event) : list Handle :=
  omap (λ ev, match ev with EvClose h => Some h | _ => None end) tr.







(** * Facts *)


(** ** What [strip] returns *)

Lemma lstrip_split t :
  ∃ pre, t = pre ++ lstrip t ∧ all_space pre
         ∧ ∀ c, head (lstrip t) = Some c → isspace c = false.
Proof.
  induction t as [|c t (pre & Ht & Hpre & Hhd)]; simpl.
  - exists []. repeat split; [constructor | discriminate].
  - destruct (isspace c) eqn:Hc.
    + exists (c :: pre). simpl. rewrite <- Ht.
      repeat split; [constructor; assumption | exact Hhd].
    + exists []. repeat split; [constructor|].
      simpl. intros c' [= <-]. exact Hc.
Qed.

Lemma rstrip_split t :
  ∃ post, t = rstrip t ++ post ∧ all_space post
          ∧ ∀ c, last (rstrip t) = Some c → isspace c = false.
Proof.
  unfold rstrip.
  destruct (lstrip_split (reverse t)) as (pre & Ht & Hpre & Hhd).
  exists (reverse pre). repeat split.
  - rewrite <- reverse_app, <- Ht. symmetry. apply reverse_involutive.
  - apply Forall_reverse. exact Hpre.
  - intros c. rewrite last_reverse. apply Hhd.
Qed.

Lemma strip_trimmed raw : trimmed raw (strip raw).
Proof.
  unfold strip.
  destruct (lstrip_split raw) as (pre & Hraw & Hpre & Hhd).
  destruct (rstrip_split (lstrip raw)) as (post & Hmid & Hpost & Hlast).
  exists pre, post. repeat split; try assumption.
  - rewrite <- Hmid. exact Hraw.
  - intros c Hc. apply Hhd. rewrite Hmid.
    destruct (rstrip (lstrip raw)); [discriminate | exact Hc].
Qed.

Lemma lstrip_blank t : all_space t → lstrip t = [].
Proof.
  induction 1 as [|c t Hc _ IH]; simpl; [reflexivity|].
  rewrite Hc. exact IH.
Qed.

(** A blank string strips to the empty string. *)
Lemma strip_blank t : all_space t → strip t = [].
Proof. intros H. unfold strip. rewrite (lstrip_blank t H). reflexivity. Qed.

Example strip_padded : strip (lit "  ok ") = lit "ok".
Proof. reflexivity. Qed.

Example strip_newlines : strip (10%N :: 9%N :: lit "a b" ++ [13%N; 10%N]) = lit "a b".
Proof. reflexivity. Qed.

Example strip_only_spaces : strip (lit "   ") = [].
Proof. reflexivity. Qed.

(** ** Modes and exception classes *)

(** 0o100644 is a regular file; 0o40755 a directory, 0o120777 a symbolic
    link and 0o10644 a FIFO are not. *)
Example S_ISREG_modes :
  S_ISREG 33188 = true ∧ S_ISREG 16877 = false
  ∧ S_ISREG 41471 = false ∧ S_ISREG 4516 = false.
Proof. repeat split. Qed.

Example FileNotFoundError_is_IOError :
  issubclass FileNotFoundError IOError = true
  ∧ issubclass SSHException IOError = false.
Proof. split; reflexivity. Qed.

(** [except Exception] catches every exception of the model. *)
Lemma isinstance_Exception e : isinstance e Exception_ = true.
Proof. destruct e as [[] m]; reflexivity. Qed.

Global Opaque lit str_of_int strip.

Ltac run :=
  repeat (progress (unfold bind, ret, raise, try_except, try_except2, try_finally, get_self,
          emit, log, outcome, outcome_of; simpl)).

(** ** time.sleep *)

Lemma sleep_sleepable W secs s :
  sleepable secs → sleep W secs s = (Ret tt, add_event (EvSleep secs) s).
Proof.
  intros [H0 H1]. unfold sleep.
  replace (secs <? - sleep_safe) with false by (symmetry; apply Z.ltb_ge; unfold sleep_safe in *; lia).
  replace (sleep_safe <? secs) with false by (symmetry; apply Z.ltb_ge; lia).
  replace (secs <? 0) with false by (symmetry; apply Z.ltb_ge; lia).
  reflexivity.
Qed.

(** A sleep that raises has not slept. *)
Lemma sleep_outcome W secs s :
  (∃ e, sleep W secs s = (Raise e, s))
  ∨ sleep W secs s = (Ret tt, add_event (EvSleep secs) s).
Proof.
  unfold sleep.
  destruct (if (secs <? - sleep_safe) || (sleep_safe <? secs)
            then far_sleep_result W secs else None) as [e|]; [left; eauto|].
  destruct (secs <? 0); [left; eauto | right; reflexivity].
Qed.

Lemma sleep_negative W secs s :
  - sleep_safe ≤ secs < 0 → sleep W secs s = (Raise negative_sleep, s).
Proof.
  intros [H0 H1]. unfold sleep.
  replace (secs <? - sleep_safe) with false by (symmetry; apply Z.ltb_ge; lia).
  replace (sleep_safe <? secs) with false
    by (symmetry; apply Z.ltb_ge; unfold sleep_safe in *; lia).
  replace (secs <? 0) with true by (symmetry; apply Z.ltb_lt; lia).
  reflexivity.
Qed.

Global Opaque sleep.

(** Splits on [attempt == self.max_retries]; before a further attempt the
    handler sleeps, which [Hdelay] makes possible. *)
Ltac last_or_sleep W Hdelay :=
  match goal with
  | |- context [?a =? max_retries ?me] =>
      let Hl := fresh "Hlast" in
      destruct (a =? max_retries me) eqn:Hl; run;
      [| rewrite (sleep_sleepable W _ _ (Hdelay (proj1 (Z.eqb_neq _ _) Hl))); run]
  end.

(** Splits on whether the sleep in the goal raises. *)
Ltac sleep_cases :=
  match goal with
  | |- context [sleep ?W ?d ?s] =>
      let e := fresh "e" in
      let H := fresh "Hsleep" in
      destruct (sleep_outcome W d s) as [[e H]|H]; rewrite H; clear H
  end.

(** ** close and connect *)

Lemma close_spec W s :
  close W s = (Ret tt, mkState (disconnected (self s)) (local_fs s) (close_trace W s)).
Proof.
  unfold close, close_trace, client_close. destruct s as [[hn p u pw mr rd [h|]] fs tr]; run.
  - unfold calls; simpl. destruct (close_result W (count_ev is_close tr)) as [e|]; run.
    + rewrite isinstance_Exception. reflexivity.
    + reflexivity.
  - reflexivity.
Qed.

Section ConnectFacts.
Variable W : World.

Lemma connect_iter_ok a s :
  conn_failure W (calls is_new_client s) = None →
  ∃ s', connect_iter W a s = (Ret (Some tt), s')
        ∧ self s' = with_client (Some (calls is_new_client s)) (self s)
        ∧ local_fs s' = local_fs s
        ∧ calls is_new_client s' = S (calls is_new_client s)
        ∧ calls is_close s' = calls is_close s.
Proof.
  unfold conn_failure, connect_iter, connect_try, new_client, load_system_host_keys,
    set_missing_host_key_policy, client_connect, calls.
  destruct s as [me fs tr]; simpl. intros H. run.
  destruct (load_keys_result W (count_ev is_new_client tr)); [discriminate|].
  run. rewrite H. run. eexists; split; [reflexivity|]. simpl. auto.
Qed.

Lemma connect_iter_retry a s e :
  conn_failure W (calls is_new_client s) = Some e →
  a ≠ max_retries (self s) →
  sleepable (retry_delay (self s)) →
  ∃ s', connect_iter W a s = (Ret None, s')
        ∧ self s' = with_client None (self s)
        ∧ local_fs s' = local_fs s
        ∧ calls is_new_client s' = S (calls is_new_client s)
        ∧ calls is_close s' = S (calls is_close s)
        ∧ ∃ pre, trace s' = pre ++ trace s ∧ EvClose (calls is_new_client s) ∈ pre.
Proof.
  unfold conn_failure, connect_iter, connect_try, new_client, load_system_host_keys,
    set_missing_host_key_policy, client_connect, calls.
  destruct s as [me fs tr]; simpl. intros H Ha Hdelay.
  apply Z.eqb_neq in Ha. run.
  destruct (load_keys_result W (count_ev is_new_client tr)) as [e1|].
  - injection H as ->. run. rewrite isinstance_Exception. run. rewrite Ha. run.
    rewrite (sleep_sleepable W _ _ Hdelay). run.
    rewrite close_spec. simpl. eexists; split; [reflexivity|]. simpl.
    unfold close_trace, calls; simpl.
    destruct (close_result W (count_ev is_close tr)); simpl;
      (repeat split; try reflexivity);
      eexists (_ :: _ :: _ :: _ :: _ :: _ :: _ :: []); (split; [reflexivity|]);
      set_solver.
  - run. rewrite H. run. rewrite isinstance_Exception. run. rewrite Ha. run.
    rewrite (sleep_sleepable W _ _ Hdelay). run.
    rewrite close_spec. simpl. eexists; split; [reflexivity|]. simpl.
    unfold close_trace, calls; simpl.
    destruct (close_result W (count_ev is_close tr)); simpl;
      (repeat split; try reflexivity);
      eexists (_ :: _ :: _ :: _ :: _ :: _ :: _ :: _ :: _ :: []); (split; [reflexivity|]);
      set_solver.
Qed.

Lemma connect_iter_last a s e :
  conn_failure W (calls is_new_client s) = Some e →
  a = max_retries (self s) →
  ∃ s', connect_iter W a s = (Raise e, s')
        ∧ self s' = with_client (Some (calls is_new_client s)) (self s)
        ∧ local_fs s' = local_fs s
        ∧ calls is_new_client s' = S (calls is_new_client s)
        ∧ calls is_close s' = calls is_close s.
Proof.
  unfold conn_failure, connect_iter, connect_try, new_client, load_system_host_keys,
    set_missing_host_key_policy, client_connect, calls.
  destruct s as [me fs tr]; simpl. intros H Ha.
  apply Z.eqb_eq in Ha. run.
  destruct (load_keys_result W (count_ev is_new_client tr)) as [e1|].
  - injection H as ->. run. rewrite isinstance_Exception. run. rewrite Ha. run.
    eexists; split; [reflexivity|]. simpl. auto.
  - run. rewrite H. run. rewrite isinstance_Exception. run. rewrite Ha. run.
    eexists; split; [reflexivity|]. simpl. auto.
Qed.

Lemma max_retries_with_client c me :
  max_retries (with_client c me) = max_retries me.
Proof. reflexivity. Qed.

Lemma retry_delay_with_client c me :
  retry_delay (with_client c me) = retry_delay me.
Proof. reflexivity. Qed.

(** The loop reaches the first attempt that succeeds. *)
Lemma connect_loop_succeeds k : ∀ n a s,
  (k < n)%nat →
  a + Z.of_nat n = max_retries (self s) + 1 →
  ((0 < k)%nat → sleepable (retry_delay (self s))) →
  (∀ i, (i < k)%nat → is_Some (conn_failure W (calls is_new_client s + i)%nat)) →
  conn_failure W (calls is_new_client s + k)%nat = None →
  ∃ s', connect_loop W n a s = (Ret tt, s')
        ∧ self s' = with_client (Some (calls is_new_client s + k)%nat) (self s)
        ∧ local_fs s' = local_fs s
        ∧ calls is_new_client s' = (calls is_new_client s + S k)%nat
        ∧ calls is_close s' = (calls is_close s + k)%nat.
Proof.
  induction k as [|k IH]; intros n a s Hk Ha Hdelay Hfail Hok;
    (destruct n as [|n]; [lia|]); simpl; unfold bind.
  - rewrite Nat.add_0_r in Hok.
    destruct (connect_iter_ok a s Hok) as (s' & -> & Hself & Hfs & Hn & Hc).
    exists s'. rewrite Hself, Hfs, Hn, Hc, !Nat.add_0_r.
    repeat split; try reflexivity; lia.
  - destruct (Hfail O ltac:(lia)) as [e He]. rewrite Nat.add_0_r in He.
    destruct (connect_iter_retry a s e He ltac:(lia) (Hdelay ltac:(lia)))
      as (s' & -> & Hself & Hfs & Hn & Hc & _).
    destruct (IH n (a + 1) s') as (s'' & -> & Hself' & Hfs' & Hn' & Hc').
    + lia.
    + rewrite Hself, max_retries_with_client. lia.
    + intros _. rewrite Hself, retry_delay_with_client. apply Hdelay. lia.
    + intros i Hi. rewrite Hn.
      replace (S (calls is_new_client s) + i)%nat
        with (calls is_new_client s + S i)%nat by lia.
      apply Hfail. lia.
    + rewrite Hn.
      replace (S (calls is_new_client s) + k)%nat
        with (calls is_new_client s + S k)%nat by lia.
      exact Hok.
    + exists s''. rewrite Hself', Hfs', Hn', Hc', Hself, Hfs, Hn, Hc.
      repeat split; try reflexivity; try lia.
      unfold with_client; simpl. do 2 f_equal. lia.
Qed.

(** When no attempt succeeds the loop makes them all, and the last one
    raises with its handle still in place. *)
Lemma connect_loop_exhausts n : ∀ a s,
  a + Z.of_nat (S n) = max_retries (self s) + 1 →
  ((0 < n)%nat → sleepable (retry_delay (self s))) →
  (∀ i, (i < S n)%nat → is_Some (conn_failure W (calls is_new_client s + i)%nat)) →
  ∃ e s', conn_failure W (calls is_new_client s + n)%nat = Some e
        ∧ connect_loop W (S n) a s = (Raise e, s')
        ∧ self s' = with_client (Some (calls is_new_client s + n)%nat) (self s)
        ∧ local_fs s' = local_fs s
        ∧ calls is_new_client s' = (calls is_new_client s + S n)%nat
        ∧ calls is_close s' = (calls is_close s + n)%nat.
Proof.
  induction n as [|n IH]; intros a s Ha Hdelay Hfail;
    destruct (Hfail O ltac:(lia)) as [e He]; rewrite Nat.add_0_r in He.
  - destruct (connect_iter_last a s e He ltac:(lia))
      as (s' & Hrun & Hself & Hfs & Hn & Hc).
    exists e, s'. rewrite Nat.add_0_r. simpl; unfold bind. rewrite Hrun, Hself, Hfs, Hn, Hc.
    repeat split; try reflexivity; try lia. assumption.
  - destruct (connect_iter_retry a s e He ltac:(lia) (Hdelay ltac:(lia)))
      as (s' & Hrun & Hself & Hfs & Hn & Hc & _).
    destruct (IH (a + 1) s') as (e' & s'' & He' & Hrun' & Hself' & Hfs' & Hn' & Hc').
    + rewrite Hself, max_retries_with_client. lia.
    + intros _. rewrite Hself, retry_delay_with_client. apply Hdelay. lia.
    + intros i Hi. rewrite Hn.
      replace (S (calls is_new_client s) + i)%nat
        with (calls is_new_client s + S i)%nat by lia.
      apply Hfail. lia.
    + exists e', s''.
      replace (calls is_new_client s + S n)%nat
        with (calls is_new_client s' + n)%nat by lia.
      split; [exact He'|].
      change (connect_loop W (S (S n)) a s)
        with (bind (connect_iter W a) (fun r => match r with
                | Some _ => ret tt
                | None => connect_loop W (S n) (a + 1) end) s).
      unfold bind at 1. rewrite Hrun, Hrun', Hself', Hfs', Hn', Hc', Hself, Hfs, Hc.
      repeat split; try reflexivity; try lia.
Qed.

(** With [max_retries <= 0] the loop body never runs. *)
Lemma connect_no_attempt s :
  max_retries (self s) <= 0 → connect W s = (Ret tt, s).
Proof.
  intros H. unfold connect, bind, get_self.
  replace (Z.to_nat (max_retries (self s))) with O by lia. reflexivity.
Qed.

End ConnectFacts.

(** ** execute_command *)

Section ExecuteFacts.
Variable W : World.

Lemma execute_iter_ok a cmd s h v :
  ssh_client (self s) = Some h →
  exec_attempt (exec_result W (calls is_exec s)) = inr v →
  ∃ s', execute_iter W a cmd s = (Ret (Some v), s')
        ∧ self s' = self s
        ∧ local_fs s' = local_fs s
        ∧ calls is_exec s' = S (calls is_exec s)
        ∧ ∀ err, ex_stderr (exec_result W (calls is_exec s)) = inr err →
            trace s' =
              (if nonempty (strip err)
               then [EvLog WARNING (lit "Command produced stderr output: " ++ strip err)]
               else [])
              ++ EvExec h cmd
              :: EvLog INFO (lit "Executing command (attempt " ++ str_of_int a
                             ++ lit "): " ++ cmd)
              :: trace s.
Proof.
  unfold exec_attempt, execute_iter, execute_try, exec_command, calls.
  destruct s as [me fs tr]; simpl. intros Hh. run. rewrite Hh. run.
  destruct (exec_result W (count_ev is_exec tr)) as [c st err out]; simpl.
  destruct c as [e|]; [discriminate|].
  destruct st as [e|st]; [discriminate|].
  destruct err as [e|err]; [discriminate|].
  destruct (st =? 0) eqn:Hst; [|discriminate].
  destruct out as [e|out]; [discriminate|]. intros [= <-]. run.
  destruct (nonempty (strip err)) eqn:Herr; run; rewrite Hst; run;
    (eexists; split; [reflexivity|]); simpl; repeat split; try reflexivity;
    intros err' [= <-]; rewrite Herr; reflexivity.
Qed.

Lemma execute_iter_fail a cmd s h e :
  ssh_client (self s) = Some h →
  exec_attempt (exec_result W (calls is_exec s)) = inl e →
  (a ≠ max_retries (self s) → sleepable (retry_delay (self s))) →
  ∃ s', execute_iter W a cmd s =
          (if a =? max_retries (self s) then Raise e else Ret None, s')
        ∧ self s' = self s
        ∧ local_fs s' = local_fs s
        ∧ calls is_exec s' = S (calls is_exec s)
        ∧ calls is_sleep s' =
            (calls is_sleep s
             + if (a =? max_retries (self s))%Z then 0 else 1)%nat.
Proof.
  unfold exec_attempt, execute_iter, execute_try, exec_command, calls.
  destruct s as [me fs tr]; simpl. intros Hh He Hdelay. revert He.
  run. rewrite Hh. run.
  destruct (exec_result W (count_ev is_exec tr)) as [c st err out]; simpl.
  destruct c as [e1|]; [intros [= <-]; run; rewrite ?isinstance_Exception; run;
    last_or_sleep W Hdelay; eexists; (split; [reflexivity|]); simpl;
    repeat split; lia|].
  destruct st as [e1|st]; [intros [= <-]; run; rewrite ?isinstance_Exception; run;
    last_or_sleep W Hdelay; eexists; (split; [reflexivity|]); simpl;
    repeat split; lia|].
  destruct err as [e1|err]; [intros [= <-]; run; rewrite ?isinstance_Exception; run;
    last_or_sleep W Hdelay; eexists; (split; [reflexivity|]); simpl;
    repeat split; lia|].
  run.
  destruct (st =? 0) eqn:Hst.
  - destruct out as [e1|out]; [|discriminate]. intros [= <-].
    destruct (nonempty (strip err)); run;
      rewrite ?isinstance_Exception; run;
      last_or_sleep W Hdelay; eexists; (split; [reflexivity|]); simpl;
      repeat split; lia.
  - intros [= <-].
    destruct (nonempty (strip err)); run;
      rewrite ?isinstance_Exception; run;
      last_or_sleep W Hdelay; eexists; (split; [reflexivity|]); simpl;
      repeat split; lia.
Qed.

(** The loop returns what the first attempt that completes returns. *)
Lemma execute_loop_returns cmd h v k : ∀ n a s,
  (k < n)%nat →
  a + Z.of_nat n = max_retries (self s) + 1 →
  ((0 < k)%nat → sleepable (retry_delay (self s))) →
  ssh_client (self s) = Some h →
  (∀ i, (i < k)%nat →
     is_inl (exec_attempt (exec_result W (calls is_exec s + i)%nat))) →
  exec_attempt (exec_result W (calls is_exec s + k)%nat) = inr v →
  ∃ s', execute_loop W n a cmd s = (Ret v, s')
        ∧ self s' = self s
        ∧ local_fs s' = local_fs s
        ∧ calls is_exec s' = (calls is_exec s + S k)%nat
        ∧ ∀ err, ex_stderr (exec_result W (calls is_exec s + k)%nat) = inr err →
            nonempty (strip err) = true →
            EvLog WARNING (lit "Command produced stderr output: " ++ strip err)
              ∈ trace s'.
Proof.
  induction k as [|k IH]; intros n a s Hk Ha Hdelay Hh Hfail Hok;
    (destruct n as [|n]; [lia|]); simpl; unfold bind.
  - rewrite Nat.add_0_r in Hok.
    destruct (execute_iter_ok a cmd s h v Hh Hok) as (s' & -> & Hself & Hfs & Hn & Htr).
    exists s'. rewrite Hself, Hfs, Hn, !Nat.add_0_r.
    repeat split; try reflexivity; try lia.
    intros err Herr Hne. rewrite (Htr err Herr), Hne. set_solver.
  - pose proof (Hfail O ltac:(lia)) as H0. rewrite Nat.add_0_r in H0.
    destruct (exec_attempt (exec_result W (calls is_exec s))) as [e|] eqn:He;
      [|contradiction].
    destruct (execute_iter_fail a cmd s h e Hh He (λ _, Hdelay ltac:(lia)))
      as (s' & -> & Hself & Hfs & Hn & _).
    replace (a =? max_retries (self s)) with false by (symmetry; apply Z.eqb_neq; lia).
    destruct (IH n (a + 1) s') as (s'' & -> & Hself' & Hfs' & Hn' & Htr').
    + lia.
    + rewrite Hself. lia.
    + intros _. rewrite Hself. apply Hdelay. lia.
    + rewrite Hself. exact Hh.
    + intros i Hi. rewrite Hn.
      replace (S (calls is_exec s) + i)%nat with (calls is_exec s + S i)%nat by lia.
      apply Hfail. lia.
    + rewrite Hn.
      replace (S (calls is_exec s) + k)%nat with (calls is_exec s + S k)%nat by lia.
      exact Hok.
    + exists s''. rewrite Hself', Hfs', Hn', Hself, Hfs, Hn.
      repeat split; try reflexivity; try lia.
      intros err Herr. apply Htr'. rewrite Hn.
      replace (S (calls is_exec s) + k)%nat with (calls is_exec s + S k)%nat by lia.
      exact Herr.
Qed.

(** When no attempt completes the loop makes them all and raises what the
    last one raised. *)
Lemma execute_loop_exhausts cmd h n : ∀ a s,
  a + Z.of_nat (S n) = max_retries (self s) + 1 →
  ((0 < n)%nat → sleepable (retry_delay (self s))) →
  ssh_client (self s) = Some h →
  (∀ i, (i < S n)%nat →
     is_inl (exec_attempt (exec_result W (calls is_exec s + i)%nat))) →
  ∃ e s', exec_attempt (exec_result W (calls is_exec s + n)%nat) = inl e
        ∧ execute_loop W (S n) a cmd s = (Raise e, s')
        ∧ self s' = self s
        ∧ calls is_exec s' = (calls is_exec s + S n)%nat.
Proof.
  induction n as [|n IH]; intros a s Ha Hdelay Hh Hfail;
    pose proof (Hfail O ltac:(lia)) as H0; rewrite Nat.add_0_r in H0;
    (destruct (exec_attempt (exec_result W (calls is_exec s))) as [e|] eqn:He;
      [|contradiction]);
    (destruct (execute_iter_fail a cmd s h e Hh He) as (s' & Hrun & Hself & Hfs & Hn & _);
     [intros Hne; apply Hdelay; lia|]).
  - exists e, s'. rewrite Nat.add_0_r. simpl; unfold bind. rewrite Hrun.
    replace (a =? max_retries (self s)) with true by (symmetry; apply Z.eqb_eq; lia).
    repeat split; try assumption; lia.
  - replace (a =? max_retries (self s)) with false in Hrun
      by (symmetry; apply Z.eqb_neq; lia).
    destruct (IH (a + 1) s') as (e' & s'' & He' & Hrun' & Hself' & Hn').
    + rewrite Hself. lia.
    + intros _. rewrite Hself. apply Hdelay. lia.
    + rewrite Hself. exact Hh.
    + intros i Hi. rewrite Hn.
      replace (S (calls is_exec s) + i)%nat with (calls is_exec s + S i)%nat by lia.
      apply Hfail. lia.
    + exists e', s''.
      replace (calls is_exec s + S n)%nat with (calls is_exec s' + n)%nat by lia.
      split; [exact He'|].
      change (execute_loop W (S (S n)) a cmd s)
        with (bind (execute_iter W a cmd) (fun r => match r with
                | Some v => ret v
                | None => execute_loop W (S n) (a + 1) cmd end) s).
      unfold bind at 1. rewrite Hrun, Hrun', Hself', Hn', Hself.
      repeat split; try reflexivity; lia.
Qed.

(** With [max_retries <= 0] the loop body never runs. *)
Lemma execute_no_attempt cmd s :
  max_retries (self s) <= 0 → execute_command W cmd s = (Ret None, s).
Proof.
  intros H. unfold execute_command, bind, get_self.
  replace (Z.to_nat (max_retries (self s))) with O by lia. reflexivity.
Qed.

End ExecuteFacts.

(** ** remote_file_exists and download_file *)

Section DownloadFacts.
Variable W : World.

Lemma remote_file_exists_result r s :
  ∃ s', remote_file_exists W r s = (Ret (exists_outcome W r s), s')
        ∧ self s' = self s
        ∧ local_fs s' = local_fs s
        ∧ calls is_scp_get s' = calls is_scp_get s
        ∧ calls is_sleep s' = calls is_sleep s
        ∧ calls is_new_client s' = calls is_new_client s
        ∧ (calls is_stat s' ≤ S (calls is_stat s))%nat.
Proof.
  unfold exists_outcome, remote_file_exists, open_sftp, sftp_stat, sftp_close, calls.
  destruct s as [me fs tr]; simpl. run.
  destruct (ssh_client me) as [h|]; run; [|eauto 10].
  destruct (open_sftp_result W (count_ev is_open_sftp tr)) as [e|]; run;
    [rewrite isinstance_Exception; run; eauto 10|].
  destruct (stat_result W (count_ev is_stat tr) r) as [e|attr]; run.
  - destruct (isinstance e IOError); run;
      destruct (sftp_close_result W (count_ev is_sftp_close tr)) as [e'|]; run;
      rewrite ?isinstance_Exception; run; eauto 10.
  - destruct (sftp_close_result W (count_ev is_sftp_close tr)) as [e'|]; run;
      rewrite ?isinstance_Exception; run; eauto 10.
Qed.

Lemma verify_result l size s :
  ∃ s', verify W l size s =
          (attempt_result (verdict W l size (local_fs s) (calls is_remove s)), s')
        ∧ self s' = self s
        ∧ local_fs s' = after_verify W l size (local_fs s) (calls is_remove s)
        ∧ calls is_scp_get s' = calls is_scp_get s
        ∧ calls is_sleep s' = calls is_sleep s
        ∧ calls is_stat s' = calls is_stat s.
Proof.
  unfold verify, path_exists, getsize, os_remove, verdict, after_verify, calls.
  destruct s as [me fs tr]; simpl. run.
  destruct (fs !! l) as [n|] eqn:Hl; run.
  - rewrite Hl. run. destruct (n =? size); run; [eauto 10|].
    rewrite Hl. destruct (remove_result W (count_ev is_remove tr)); run; eauto 10.
  - destruct (local_dir W l) as [[n e]|]; run; [|eauto 10].
    rewrite Hl. run. destruct (n =? size); run; [eauto 10|].
    rewrite Hl. run. eauto 10.
Qed.

Local Opaque verify.

Ltac use_verify :=
  match goal with
  | |- context [verify ?W ?l ?size ?st] =>
      let s' := fresh "s'" in
      let Hself := fresh "Hself" in
      let Hfs := fresh "Hfs" in
      let Hscp := fresh "Hscp" in
      let Hsl := fresh "Hsl" in
      let Hst := fresh "Hst" in
      destruct (verify_result l size st) as (s' & -> & Hself & Hfs & Hscp & Hsl & Hst);
      simpl in Hself, Hfs, Hscp, Hsl, Hst
  end.

(** A verification that fails leaves nothing at the local path. *)
Lemma after_verify_failed l size fs removes :
  verdict W l size fs removes = VerificationFailed →
  after_verify W l size fs removes !! l = None.
Proof.
  unfold verdict, after_verify.
  destruct (fs !! l) as [n|] eqn:Hl.
  - destruct (n =? size); [discriminate|].
    destruct (remove_result W removes); [discriminate|].
    intros _. apply lookup_delete_eq.
  - intros _. exact Hl.
Qed.

(** A verification that passes leaves the local files as the copy left
    them. *)
Lemma after_verify_passed l size fs removes :
  verdict W l size fs removes = Verified →
  after_verify W l size fs removes = fs.
Proof.
  unfold verdict, after_verify.
  destruct (fs !! l) as [n|]; [|reflexivity].
  destruct (n =? size); [reflexivity|].
  destruct (remove_result W removes); discriminate.
Qed.

Ltac attempt_raised :=
  eexists; (split; [reflexivity|]); simpl; repeat split;
  first [lia | congruence | reflexivity].

Lemma download_attempt_result a r l s :
  ∃ s', download_attempt W a r l s = (attempt_result (attempt_outcome W r l s), s')
        ∧ self s' = self s
        ∧ (calls is_scp_get s' ≤ S (calls is_scp_get s))%nat
        ∧ calls is_sleep s' = calls is_sleep s
        ∧ (calls is_stat s ≤ calls is_stat s' ≤ S (calls is_stat s))%nat
        ∧ (attempt_outcome W r l s = VerificationFailed → local_fs s' !! l = None)
        ∧ (attempt_outcome W r l s = Verified →
           local_fs s' = stored W (calls is_scp_get s) l (local_fs s)
           ∧ calls is_stat s' = S (calls is_stat s)
           ∧ ∃ attr, stat_result W (calls is_stat s) r = inr attr
                     ∧ verification W l (st_size attr) s = Verified).
Proof.
  unfold attempt_outcome, verification, download_attempt, open_sftp, sftp_stat,
    sftp_close, scp_get, calls.
  destruct s as [[hn p u pw mr rd [h|]] fs tr]; simpl; run;
    [|attempt_raised].
  destruct (open_sftp_result W (count_ev is_open_sftp tr)) as [e|]; run;
    [attempt_raised|].
  destruct (stat_result W (count_ev is_stat tr) r) as [e|attr]; run;
    [attempt_raised|].
  destruct (sftp_close_result W (count_ev is_sftp_close tr)) as [e|]; run;
    [attempt_raised|].
  destruct (scp_raises (scp_result W (count_ev is_scp_get tr))) as [e|]; run;
    [attempt_raised|].
  use_verify. unfold calls in *. simpl in *.
  eexists. split; [reflexivity|]. rewrite Hself, Hfs, Hscp, Hsl, Hst.
  split; [reflexivity|]. split; [lia|]. split; [reflexivity|]. split; [lia|].
  split; [apply after_verify_failed|].
  intros Hok. split; [apply after_verify_passed, Hok|].
  split; [reflexivity|]. exists attr. split; [reflexivity | exact Hok].
Qed.

Local Opaque download_attempt.

Lemma download_iter_result a r l s :
  (attempt_outcome W r l s ≠ Verified →
   a ≠ max_retries (self s) → sleepable (retry_delay (self s))) →
  ∃ s', download_iter W a r l s =
          (iter_result (a =? max_retries (self s)) (attempt_outcome W r l s), s')
        ∧ self s' = self s
        ∧ (calls is_scp_get s' ≤ S (calls is_scp_get s))%nat
        ∧ (calls is_stat s ≤ calls is_stat s' ≤ S (calls is_stat s))%nat
        ∧ (attempt_outcome W r l s = VerificationFailed →
           local_fs s' !! l = None)
        ∧ (attempt_outcome W r l s = Verified →
           local_fs s' = stored W (calls is_scp_get s) l (local_fs s)
           ∧ calls is_stat s' = S (calls is_stat s)
           ∧ ∃ attr, stat_result W (calls is_stat s) r = inr attr
                     ∧ verification W l (st_size attr) s = Verified).
Proof.
  intros Hdelay. unfold download_iter, download_try, try_except2, bind.
  destruct (download_attempt_result a r l s)
    as (s' & -> & Hself & Hscp & Hsl & Hst & Hfs & Hok).
  rewrite <- Hself in Hdelay.
  destruct (attempt_outcome W r l s) as [| |e] eqn:Hout; simpl.
  - exists s'. auto 10.
  - specialize (Hdelay ltac:(discriminate)).
    unfold get_self, ret. rewrite <- Hself.
    destruct (a =? max_retries (self s')) eqn:Hlast.
    + eexists; (split; [reflexivity|]); simpl; auto 10.
    + rewrite (sleep_sleepable W _ _ (Hdelay (proj1 (Z.eqb_neq _ _) Hlast))).
      eexists; (split; [reflexivity|]); simpl.
      repeat split; auto; try discriminate; unfold calls in *; simpl; lia.
  - specialize (Hdelay ltac:(discriminate)).
    rewrite isinstance_Exception.
    unfold get_self, log, emit, ret, raise; simpl. rewrite <- Hself.
    destruct (isinstance e SCPException);
      (destruct (a =? max_retries (self s')) eqn:Hlast; simpl;
       [| rewrite (sleep_sleepable W _ _ (Hdelay (proj1 (Z.eqb_neq _ _) Hlast)))]);
      eexists; (split; [reflexivity|]); simpl;
      (repeat split; auto; try discriminate; unfold calls in *; simpl; lia).
Qed.

(** Whatever the delay, an iteration copies at most once, raises or goes
    on. *)
Lemma download_iter_calls a r l s :
  (calls is_scp_get (snd (download_iter W a r l s)) ≤ S (calls is_scp_get s))%nat
  ∧ (calls is_stat s ≤ calls is_stat (snd (download_iter W a r l s)))%nat
  ∧ (fst (download_iter W a r l s) = Ret (Some true) →
     attempt_outcome W r l s = Verified
     ∧ download_iter W a r l s
       = (Ret (Some true), snd (download_attempt W a r l s))).
Proof.
  unfold download_iter, download_try, try_except2, bind.
  destruct (download_attempt_result a r l s)
    as (s' & -> & Hself & Hscp & _ & [Hst _] & _).
  assert (Hcalls : (calls is_scp_get s' ≤ S (calls is_scp_get s))%nat
                   ∧ (calls is_stat s ≤ calls is_stat s')%nat) by (split; assumption).
  clear Hscp Hst.
  destruct (attempt_outcome W r l s) as [| |e]; simpl;
    unfold get_self, log, emit, ret, raise; simpl;
    repeat first
      [ split; [apply Hcalls|]; split; [apply Hcalls|];
        first [intros H; discriminate H | intros _; split; reflexivity]
      | rewrite isinstance_Exception
      | progress simpl
      | match goal with
        | |- context [isinstance ?e SCPException] =>
            destruct (isinstance e SCPException)
        | |- context [(?a =? max_retries ?me)%Z] => destruct (a =? max_retries me)
        end
      | sleep_cases ].
Qed.

(** The loop, when no attempt before the last one is verified: the outcome
    of the last attempt decides. *)
Lemma download_loop_exhausted r l n : ∀ a s,
  a + Z.of_nat (S n) = max_retries (self s) + 1 →
  ((0 < n)%nat → sleepable (retry_delay (self s))) →
  (∀ i, (i < n)%nat →
     attempt_outcome W r l (attempt_state W r l i a s) ≠ Verified) →
  ∃ s', download_loop W (S n) a r l s =
          (attempt_result (attempt_outcome W r l (attempt_state W r l n a s)), s')
        ∧ self s' = self s
        ∧ (attempt_outcome W r l (attempt_state W r l n a s) = VerificationFailed →
           local_fs s' !! l = None).
Proof.
  induction n as [|n IH]; intros a s Ha Hdelay Hnv.
  - simpl. unfold bind.
    destruct (download_iter_result a r l s) as (s' & -> & Hself & _ & _ & Hfs & _);
      [intros _ Hne; exfalso; lia|].
    replace (a =? max_retries (self s)) with true by (symmetry; apply Z.eqb_eq; lia).
    exists s'. destruct (attempt_outcome W r l s); simpl; auto.
  - change (download_loop W (S (S n)) a r l s)
      with (bind (download_iter W a r l) (fun x => match x with
              | Some b => ret b
              | None => download_loop W (S n) (a + 1) r l end) s).
    unfold bind at 1.
    pose proof (Hnv O ltac:(lia)) as H0. simpl in H0.
    destruct (download_iter_result a r l s) as (s' & Hrun & Hself & _);
      [intros _ _; apply Hdelay; lia|].
    change (attempt_state W r l (S n) a s)
      with (attempt_state W r l n (a + 1) (snd (download_iter W a r l s))).
    rewrite Hrun. simpl snd.
    replace (a =? max_retries (self s)) with false by (symmetry; apply Z.eqb_neq; lia).
    destruct (IH (a + 1) s') as (s'' & Hrun' & Hself' & Hfs').
    + rewrite Hself. lia.
    + intros _. rewrite Hself. apply Hdelay. lia.
    + intros i Hi. specialize (Hnv (S i) ltac:(lia)). simpl in Hnv.
      rewrite Hrun in Hnv. exact Hnv.
    + exists s''. rewrite <- Hself, <- Hself'.
      destruct (attempt_outcome W r l s); [contradiction| |]; simpl; auto.
Qed.

(** When the loop runs, no attempt fetches more than once. *)
Lemma download_loop_scp_calls r l n : ∀ a s,
  (calls is_scp_get (snd (download_loop W n a r l s))
   ≤ calls is_scp_get s + n)%nat.
Proof.
  induction n as [|n IH]; intros a s; simpl; [lia|].
  unfold bind.
  pose proof (proj1 (download_iter_calls a r l s)) as Hscp.
  destruct (download_iter W a r l s) as [[[b|]|e] s']; simpl in *; try lia.
  specialize (IH (a + 1) s'). lia.
Qed.

Lemma download_file_passes r l s :
  exists_outcome W r s = true →
  download_file W r l s =
    download_loop W (Z.to_nat (max_retries (self s))) 1 r l
      (snd (remote_file_exists W r s)).
Proof.
  intros Hex. unfold download_file, bind at 1.
  destruct (remote_file_exists_result r s) as (s0 & -> & Hself & _).
  rewrite Hex. simpl. unfold bind, get_self. rewrite Hself. reflexivity.
Qed.

Lemma download_file_fails_fast r l s :
  exists_outcome W r s = false →
  download_file W r l s =
    (Ret false,
     add_event (EvLog ERROR (lit "Remote file does not exist: " ++ r))
       (snd (remote_file_exists W r s))).
Proof.
  intros Hex. unfold download_file, bind at 1.
  destruct (remote_file_exists_result r s) as (s0 & -> & _).
  rewrite Hex. reflexivity.
Qed.

(** The call, when the check passes and no attempt before the last one is
    verified. *)
Lemma download_file_exhausted r l s n :
  exists_outcome W r s = true →
  max_retries (self s) = Z.of_nat (S n) →
  ((0 < n)%nat → sleepable (retry_delay (self s))) →
  (∀ i, (i < n)%nat →
     attempt_outcome W r l
       (attempt_state W r l i 1 (snd (remote_file_exists W r s))) ≠ Verified) →
  fst (download_file W r l s) =
    attempt_result
      (attempt_outcome W r l
         (attempt_state W r l n 1 (snd (remote_file_exists W r s)))).
Proof.
  intros Hex HN Hdelay Hnv.
  rewrite (download_file_passes r l s Hex), HN, Nat2Z.id.
  destruct (remote_file_exists_result r s) as (s0 & Hrun & Hself & _).
  rewrite Hrun in Hnv |- *.
  change (snd (Ret (exists_outcome W r s), s0)) with s0 in *.
  destruct (download_loop_exhausted r l n 1 s0) as (s' & -> & _).
  - rewrite Hself. lia.
  - rewrite Hself. exact Hdelay.
  - exact Hnv.
  - reflexivity.
Qed.

End DownloadFacts.

(** * The claims *)

(** The scenario of the specification: the command exits with status 0 and
    prints [ok]. *)
Example echo_ok :
  fst (execute_command calm (lit "echo ok") (connected 3)) = Ret (Some (lit "ok")).
Proof. vm_compute. reflexivity. Qed.

(** A download that passes verification leaves the 10 bytes at the local
    path. *)
Example download_round_trip :
  fst (download_file calm remote_jpg local_jpg (connected 3)) = Ret true
  ∧ local_fs (snd (download_file calm remote_jpg local_jpg (connected 3)))
      !! local_jpg = Some 10.
Proof. vm_compute. split; reflexivity. Qed.

(** C7: [close()] never raises.  It returns normally in every state and every
    world; afterwards the attributes are those [__init__] sets (the handle
    reference is [None], the configuration is kept); the shutdown is attempted
    exactly when a handle existed and its error, if any, is only logged; on a
    session that was never connected and on a second call in a row it does
    nothing; and a [connect()] after it whose first attempt succeeds returns
    with a new handle in place. *)
Theorem close_never_raises (W : World) (s : State) :
  let s1 := snd (close W s) in
  fst (close W s) = Ret tt
  ∧ self s1 = disconnected (self s)
  ∧ local_fs s1 = local_fs s
  ∧ trace s1 = close_trace W s
  ∧ close W s1 = (Ret tt, s1)
  ∧ (∀ hn p u pw mr rd fs tr,
       close W (mkState (init hn p u pw mr rd) fs tr)
       = (Ret tt, mkState (init hn p u pw mr rd) fs tr))
  ∧ (1 <= max_retries (self s) →
     conn_failure W (calls is_new_client s1) = None →
     fst (connect W s1) = Ret tt
     ∧ ssh_client (self (snd (connect W s1))) = Some (calls is_new_client s1)).
Proof.
  simpl. rewrite close_spec. simpl.
  repeat split; try (intros; rewrite ?close_spec; reflexivity).
  - unfold connect, bind, get_self. simpl.
    destruct (connect_loop_succeeds W O (Z.to_nat (max_retries (self s))) 1
                (mkState (disconnected (self s)) (local_fs s) (close_trace W s)))
      as (s' & -> & _); simpl; try lia; try (intros; lia).
    + rewrite Nat.add_0_r. assumption.
    + reflexivity.
  - unfold connect, bind, get_self. simpl.
    destruct (connect_loop_succeeds W O (Z.to_nat (max_retries (self s))) 1
                (mkState (disconnected (self s)) (local_fs s) (close_trace W s)))
      as (s' & -> & Hself & _); simpl; try lia; try (intros; lia).
    + rewrite Nat.add_0_r. assumption.
    + rewrite Hself, Nat.add_0_r. reflexivity.
Qed.

(** The shutdown of handle 0 fails: the error is logged, nothing is raised
    and the session can connect again. *)
Lemma close_never_raises_witness :
  fst (close stuck (connected 3)) = Ret tt
  ∧ trace (snd (close stuck (connected 3)))
    = [EvLog ERROR (lit "Error closing SSH connection: transport is gone");
       EvClose O; EvSSHClient O]
  ∧ fst (connect stuck (snd (close stuck (connected 3)))) = Ret tt
  ∧ ssh_client (self (snd (connect stuck (snd (close stuck (connected 3))))))
    = Some 1%nat.
Proof.
  pose proof (close_never_raises stuck (connected 3)) as H. cbv zeta in H.
  destruct H as (H1 & _ & _ & H4 & _ & _ & H7).
  split; [exact H1|]. split; [rewrite H4; vm_compute; reflexivity|].
  apply H7; vm_compute; [discriminate | reflexivity].
Defined.

(** C2: with [max_retries = N >= 1] and a [retry_delay] that [time.sleep]
    takes (from 0 to [sleep_safe] seconds), counting one attempt per
    [paramiko.SSHClient] created: if all of the next [N] attempts fail,
    [connect()] raises what the [N]-th raised after exactly [N] attempts; if
    attempt [k <= N] is the first that succeeds, [connect()] returns after
    exactly [k] attempts, holding the handle of attempt [k]. *)
Theorem connect_attempt_count (W : World) (s : State) (N : nat) :
  max_retries (self s) = Z.of_nat N →
  (1 ≤ N)%nat →
  sleepable (retry_delay (self s)) →
  let h0 := calls is_new_client s in
  ((∀ i, (i < N)%nat → is_Some (conn_failure W (h0 + i)%nat)) →
     ∃ e, conn_failure W (h0 + (N - 1))%nat = Some e
          ∧ fst (connect W s) = Raise e
          ∧ calls is_new_client (snd (connect W s)) = (h0 + N)%nat)
  ∧ (∀ k, (1 ≤ k ≤ N)%nat →
       (∀ i, (i < k - 1)%nat → is_Some (conn_failure W (h0 + i)%nat)) →
       conn_failure W (h0 + (k - 1))%nat = None →
       fst (connect W s) = Ret tt
       ∧ calls is_new_client (snd (connect W s)) = (h0 + k)%nat
       ∧ ssh_client (self (snd (connect W s))) = Some (h0 + (k - 1))%nat).
Proof.
  intros HN Hpos Hdelay h0. unfold connect, bind, get_self. simpl.
  rewrite HN, Nat2Z.id. split.
  - intros Hfail. destruct N as [|n]; [lia|].
    destruct (connect_loop_exhausts W n 1 s) as (e & s' & He & -> & _ & _ & Hn & _).
    + lia.
    + intros _. exact Hdelay.
    + exact Hfail.
    + exists e. replace (S n - 1)%nat with n by lia. auto.
  - intros k Hk Hfail Hok.
    destruct (connect_loop_succeeds W (k - 1) N 1 s) as (s' & -> & Hself & _ & Hn & _);
      try assumption; try lia; [intros _; exact Hdelay|].
    simpl. rewrite Hself, Hn. repeat split. unfold h0. lia.
Qed.

(** The scenario of the specification: [max_retries = 3], the connection
    fails twice and then succeeds. *)
Lemma connect_attempt_count_witness :
  fst (connect flaky (fresh 3)) = Ret tt
  ∧ calls is_new_client (snd (connect flaky (fresh 3))) = 3%nat
  ∧ ssh_client (self (snd (connect flaky (fresh 3)))) = Some 2%nat.
Proof.
  refine (proj2 (connect_attempt_count flaky (fresh 3) 3 eq_refl _ _) 3%nat _ _ _).
  - repeat constructor.
  - unfold sleepable, sleep_safe. simpl. lia.
  - split; repeat constructor.
  - intros [|[|i]] Hi; [vm_compute; eauto .. | exfalso; simpl in Hi; lia].
  - reflexivity.
Defined.

(** C9, at an input where the code departs from it: [max_retries = 2] and
    the host rejects both attempts.  The handle of the first attempt is closed
    before the second begins, but [connect()] raises out of the second attempt
    with handle 1 still referenced by [ssh_client] and never closed. *)
Theorem final_connect_failure_keeps_handle :
  let s' := snd (connect refusing (fresh 2)) in
  fst (connect refusing (fresh 2))
    = Raise (Exc AuthenticationException (lit "Authentication failed."))
  ∧ ssh_client (self s') = Some 1%nat
  ∧ (EvClose 0%nat ∈ trace s')
  ∧ (EvClose 1%nat ∉ trace s')
  ∧ calls is_new_client s' = 2%nat
  ∧ calls is_close s' = 1%nat.
Proof.
  vm_compute. repeat split; try reflexivity.
  - set_solver.
  - intros H. repeat (apply elem_of_cons in H as [H|H]; [discriminate H|]).
    inversion H.
Qed.

(** C8: when an attempt of [execute_command] completes with exit status 0
    (the attempts before it having failed, and [retry_delay] being a delay
    that [time.sleep] takes if there were any), the call returns the stripped
    stdout, or [None] when nothing is left of it; the returned text is stdout
    without its leading and trailing whitespace; a blank stdout gives [None];
    and stderr that is not blank is logged as a warning while the call still
    returns that value. *)
Theorem execute_command_success (W : World) (cmd : Text) (s : State)
    (h : Handle) (N k : nat) (out err : Text) :
  max_retries (self s) = Z.of_nat N →
  ssh_client (self s) = Some h →
  (k < N)%nat →
  ((0 < k)%nat → sleepable (retry_delay (self s))) →
  (∀ i, (i < k)%nat →
     is_inl (exec_attempt (exec_result W (calls is_exec s + i)%nat))) →
  exec_result W (calls is_exec s + k)%nat = mkExec None (inr 0) (inr err) (inr out) →
  fst (execute_command W cmd s)
    = Ret (if nonempty (strip out) then Some (strip out) else None)
  ∧ trimmed out (strip out)
  ∧ (all_space out → fst (execute_command W cmd s) = Ret None)
  ∧ (nonempty (strip err) = true →
     EvLog WARNING (lit "Command produced stderr output: " ++ strip err)
       ∈ trace (snd (execute_command W cmd s))).
Proof.
  intros HN Hh Hk Hdelay Hfail Hok.
  unfold execute_command, bind, get_self. simpl. rewrite HN, Nat2Z.id.
  destruct (execute_loop_returns W cmd h
              (if nonempty (strip out) then Some (strip out) else None) k N 1 s)
    as (s' & -> & _ & _ & _ & Hwarn); try assumption; try lia.
  { rewrite Hok. reflexivity. }
  simpl. repeat split.
  - apply strip_trimmed.
  - intros Hblank. rewrite (strip_blank out Hblank). reflexivity.
  - intros Hne. apply Hwarn; [|exact Hne]. rewrite Hok. reflexivity.
Qed.

(** The first attempt times out; the second exits with status 0, prints
    ["  ok "] and writes [" deprecated "] to stderr. *)
Lemma execute_command_success_witness :
  fst (execute_command slow_then_noisy (lit "echo ok") (connected 3))
    = Ret (Some (lit "ok"))
  ∧ EvLog WARNING (lit "Command produced stderr output: deprecated")
      ∈ trace (snd (execute_command slow_then_noisy (lit "echo ok") (connected 3))).
Proof.
  destruct (execute_command_success slow_then_noisy (lit "echo ok") (connected 3)
              O 3 1 (lit "  ok ") (lit " deprecated ") eq_refl eq_refl)
    as (H1 & _ & _ & H4).
  - repeat constructor.
  - intros _. unfold sleepable, sleep_safe. simpl. lia.
  - intros [|i] Hi; [exact I | exfalso; lia].
  - reflexivity.
  - split; [exact H1 | exact (H4 eq_refl)].
Defined.

(** C4: [remote_file_exists] never raises; it answers [True] exactly when
    the session holds a handle, the SFTP channel opens, [stat] returns
    attributes whose mode is that of a regular file, and the channel closes
    without error.  So it answers [False] when [stat] raises (a missing path
    or any other error), when the entry is not a regular file, and when
    opening or closing the channel raises. *)
Theorem remote_file_exists_never_raises (W : World) (path : Text) (s : State) :
  (∃ b, fst (remote_file_exists W path s) = Ret b)
  ∧ (fst (remote_file_exists W path s) = Ret true ↔
     ∃ h attr,
       ssh_client (self s) = Some h
       ∧ open_sftp_result W (calls is_open_sftp s) = None
       ∧ stat_result W (calls is_stat s) path = inr attr
       ∧ S_ISREG (st_mode attr) = true
       ∧ sftp_close_result W (calls is_sftp_close s) = None)
  ∧ (∀ e, stat_result W (calls is_stat s) path = inl e →
       fst (remote_file_exists W path s) = Ret false)
  ∧ (∀ attr, stat_result W (calls is_stat s) path = inr attr →
       S_ISREG (st_mode attr) = false →
       fst (remote_file_exists W path s) = Ret false)
  ∧ (∀ e, open_sftp_result W (calls is_open_sftp s) = Some e →
       fst (remote_file_exists W path s) = Ret false)
  ∧ (∀ e, sftp_close_result W (calls is_sftp_close s) = Some e →
       fst (remote_file_exists W path s) = Ret false).
Proof.
  destruct (remote_file_exists_result W path s) as (s' & -> & _). simpl.
  unfold exists_outcome.
  split; [eauto|].
  split.
  - split.
    + destruct (ssh_client (self s)) as [h|]; [|discriminate].
      destruct (open_sftp_result W (calls is_open_sftp s)); [discriminate|].
      destruct (stat_result W (calls is_stat s) path) as [|attr]; [discriminate|].
      destruct (sftp_close_result W (calls is_sftp_close s)); [discriminate|].
      intros [= H]. exists h, attr. auto.
    + intros (h & attr & -> & -> & -> & -> & ->). reflexivity.
  - repeat split.
    + intros e ->. destruct (ssh_client (self s)); [|reflexivity].
      destruct (open_sftp_result W (calls is_open_sftp s)); reflexivity.
    + intros attr -> ->. destruct (ssh_client (self s)); [|reflexivity].
      destruct (open_sftp_result W (calls is_open_sftp s)); [reflexivity|].
      destruct (sftp_close_result W (calls is_sftp_close s)); reflexivity.
    + intros e ->. destruct (ssh_client (self s)); reflexivity.
    + intros e ->. destruct (ssh_client (self s)); [|reflexivity].
      destruct (open_sftp_result W (calls is_open_sftp s)); [reflexivity|].
      destruct (stat_result W (calls is_stat s) path); reflexivity.
Qed.

(** A missing path, a directory, and a regular file. *)
Lemma remote_file_exists_never_raises_witness :
  fst (remote_file_exists missing remote_jpg (connected 3)) = Ret false
  ∧ fst (remote_file_exists directory remote_jpg (connected 3)) = Ret false
  ∧ fst (remote_file_exists calm remote_jpg (connected 3)) = Ret true.
Proof.
  split; [|split].
  - destruct (remote_file_exists_never_raises missing remote_jpg (connected 3))
      as (_ & _ & H & _).
    exact (H _ eq_refl).
  - destruct (remote_file_exists_never_raises directory remote_jpg (connected 3))
      as (_ & _ & _ & H & _).
    exact (H _ eq_refl eq_refl).
  - destruct (remote_file_exists_never_raises calm remote_jpg (connected 3))
      as (_ & H & _).
    apply (proj2 H). exists O, (mkAttr 33188 10). repeat split.
Defined.

(** C5: when the existence check answers [False], [download_file] returns
    [False] at once: all it adds to the state the check left is one error
    line in the log.  No copy is made, nothing sleeps, no further [stat] is
    issued and the local files are untouched. *)
Theorem download_file_missing_remote (W : World) (r l : Text) (s : State) :
  fst (remote_file_exists W r s) = Ret false →
  let s0 := snd (remote_file_exists W r s) in
  let s' := snd (download_file W r l s) in
  download_file W r l s
    = (Ret false, add_event (EvLog ERROR (lit "Remote file does not exist: " ++ r)) s0)
  ∧ calls is_scp_get s' = calls is_scp_get s
  ∧ calls is_sleep s' = calls is_sleep s
  ∧ calls is_stat s' = calls is_stat s0
  ∧ local_fs s' = local_fs s.
Proof.
  intros Hex. simpl.
  destruct (remote_file_exists_result W r s) as (s0 & Hrun & _ & Hfs & Hscp & Hsl & _).
  rewrite Hrun in Hex. injection Hex as Hex.
  rewrite (download_file_fails_fast W r l s Hex), Hrun. simpl.
  unfold calls in *. simpl. auto.
Qed.

Lemma download_file_missing_remote_witness :
  fst (download_file missing remote_jpg local_jpg (connected 3)) = Ret false
  ∧ calls is_scp_get (snd (download_file missing remote_jpg local_jpg (connected 3)))
    = O.
Proof.
  destruct (download_file_missing_remote missing remote_jpg local_jpg (connected 3)
              eq_refl) as (H1 & H2 & _).
  split; [rewrite H1; reflexivity | exact H2].
Defined.



(** The cleanup the size-mismatch branch does: when every attempt fails
    verification, the call returns [False] and nothing remains at the local
    path. *)
Lemma size_mismatch_leaves_no_file (W : World) (r l : Text) (s : State)
    (N : nat) :
  fst (remote_file_exists W r s) = Ret true →
  max_retries (self s) = Z.of_nat N →
  (1 ≤ N)%nat →
  sleepable (retry_delay (self s)) →
  (∀ i, (i < N)%nat →
     attempt_outcome W r l
       (attempt_state W r l i 1 (snd (remote_file_exists W r s)))
     = VerificationFailed) →
  fst (download_file W r l s) = Ret false
  ∧ local_fs (snd (download_file W r l s)) !! l = None.
Proof.
  intros Hex HN Hpos Hdelay Hall.
  destruct (remote_file_exists_result W r s) as (s0 & Hrun & Hself & _).
  rewrite Hrun in Hex. injection Hex as Hex.
  rewrite (download_file_passes W r l s Hex), HN, Nat2Z.id.
  destruct N as [|n]; [lia|].
  rewrite Hrun in Hall |- *.
  change (snd (Ret (exists_outcome W r s), s0)) with s0 in *.
  destruct (download_loop_exhausted W r l n 1 s0) as (s' & -> & _ & Hfs).
  - rewrite Hself. lia.
  - intros _. rewrite Hself. exact Hdelay.
  - intros i Hi. rewrite (Hall i ltac:(lia)). discriminate.
  - rewrite (Hall n ltac:(lia)) in Hfs |- *. simpl. split; [reflexivity|].
    apply Hfs. reflexivity.
Qed.

(** C6, at an input where the code departs from it: [max_retries = 1], the
    remote file has 10 bytes, and the copy writes 4 bytes to the local path
    before its socket times out.  [download_file] raises the [SCPException]
    and the 4-byte file is still at the local path: only the size-mismatch
    branch removes the file, the exception handlers do not. *)
Theorem partial_file_survives_transfer_error :
  let s' := snd (download_file dropping remote_jpg local_jpg (connected 1)) in
  fst (download_file dropping remote_jpg local_jpg (connected 1))
    = Raise (Exc SCPException (lit "Error receiving, socket.timeout"))
  ∧ local_fs (connected 1) !! local_jpg = None
  ∧ local_fs s' !! local_jpg = Some 4
  ∧ count_ev (fun ev => match ev with EvRemove _ => true | _ => false end)
      (trace s') = O.
Proof. vm_compute. repeat split. Qed.

(** C10: with [max_retries = 0] no loop body runs and nothing is raised.
    [connect()] returns and leaves the state as it was, opening no
    connection; [execute_command()] returns [None] and leaves the state as it
    was, running nothing; [download_file()] returns [False] having made no
    copy, slept for nothing and changed no local file. *)
Theorem zero_retries_fall_through (W : World) (s : State) :
  max_retries (self s) = 0 →
  connect W s = (Ret tt, s)
  ∧ (∀ cmd, execute_command W cmd s = (Ret None, s))
  ∧ (∀ r l,
       fst (download_file W r l s) = Ret false
       ∧ calls is_scp_get (snd (download_file W r l s)) = calls is_scp_get s
       ∧ calls is_sleep (snd (download_file W r l s)) = calls is_sleep s
       ∧ calls is_new_client (snd (download_file W r l s)) = calls is_new_client s
       ∧ local_fs (snd (download_file W r l s)) = local_fs s).
Proof.
  intros H0. split; [apply connect_no_attempt; lia|].
  split; [intros cmd; apply execute_no_attempt; lia|].
  intros r l.
  destruct (remote_file_exists_result W r s)
    as (s0 & Hrun & Hself & Hfs & Hscp & Hsl & Hnew & _).
  destruct (exists_outcome W r s) eqn:Hex.
  - rewrite (download_file_passes W r l s Hex), H0, Hrun. simpl. auto.
  - rewrite (download_file_fails_fast W r l s Hex), Hrun. simpl.
    unfold calls in *. simpl. auto.
Qed.

(** A session constructed with [max_retries = 0]: [connect()] leaves it
    disconnected, and the other two calls fall through as well. *)
Lemma zero_retries_fall_through_witness :
  connect calm (fresh 0) = (Ret tt, fresh 0)
  ∧ ssh_client (self (fresh 0)) = None
  ∧ execute_command calm (lit "echo ok") (fresh 0) = (Ret None, fresh 0)
  ∧ fst (download_file calm remote_jpg local_jpg (fresh 0)) = Ret false
  ∧ fst (download_file calm remote_jpg local_jpg (connected 0)) = Ret false.
Proof.
  destruct (zero_retries_fall_through calm (fresh 0) eq_refl) as (H1 & H2 & H3).
  destruct (zero_retries_fall_through calm (connected 0) eq_refl) as (_ & _ & H4).
  split; [exact H1|]. split; [reflexivity|]. split; [exact (H2 _)|].
  split; [exact (proj1 (H3 _ _)) | exact (proj1 (H4 _ _))].
Defined.

(** C3 as stated fails: after the only attempt allowed has failed,
    [connect()] raises paramiko's [AuthenticationException],
    [execute_command()] raises the plain [Exception] built in the source for
    a non-zero exit status, and [download_file()] raises the [SCPException]
    of the copy; none is of the type the taxonomy names. *)
Lemma taxonomy_counterexample :
  (∃ e, fst (connect refusing (fresh 1)) = Raise e
        ∧ exc_class e = AuthenticationException
        ∧ in_taxonomy OpConnect e = false)
  ∧ (∃ e, fst (execute_command failing (lit "false") (connected 1)) = Raise e
          ∧ e = Exc Exception_ (lit "Command failed with exit status 1")
          ∧ in_taxonomy OpExecute e = false)
  ∧ (∃ e, fst (download_file dropping remote_jpg local_jpg (connected 1)) = Raise e
          ∧ exc_class e = SCPException
          ∧ in_taxonomy OpDownload e = false).
Proof.
  repeat split; eexists; (split; [vm_compute; reflexivity|]);
    split; vm_compute; reflexivity.
Qed.

(** C3 amended: with [max_retries = N >= 1] and a [retry_delay] that
    [time.sleep] takes (from 0 to [sleep_safe] seconds), every operation
    whose retries are exhausted raises the very exception its last attempt
    ended in, of whatever class that is.  [connect()] raises what the last
    connection attempt raised; [execute_command()] raises what its last
    attempt raised,
    which for an exit status other than 0 is a plain [Exception] saying
    "Command failed with exit status" and the status; [download_file()]
    raises what the transfer of its last attempt raised. *)
Theorem exhausted_retries_reraise (W : World) (s : State) (N : nat) :
  max_retries (self s) = Z.of_nat N →
  (1 ≤ N)%nat →
  sleepable (retry_delay (self s)) →
  ((∀ i, (i < N)%nat →
      is_Some (conn_failure W (calls is_new_client s + i)%nat)) →
   ∃ e, conn_failure W (calls is_new_client s + (N - 1))%nat = Some e
        ∧ fst (connect W s) = Raise e)
  ∧ (∀ cmd h,
       ssh_client (self s) = Some h →
       (∀ i, (i < N)%nat →
          is_inl (exec_attempt (exec_result W (calls is_exec s + i)%nat))) →
       ∃ e, exec_attempt (exec_result W (calls is_exec s + (N - 1))%nat) = inl e
            ∧ fst (execute_command W cmd s) = Raise e)
  ∧ (∀ exit_status err out,
       exit_status ≠ 0 →
       exec_attempt (mkExec None (inr exit_status) (inr err) out)
       = inl (Exc Exception_
                (lit "Command failed with exit status " ++ str_of_int exit_status)))
  ∧ (∀ r l e,
       fst (remote_file_exists W r s) = Ret true →
       (∀ i, (i < N - 1)%nat →
          attempt_outcome W r l
            (attempt_state W r l i 1 (snd (remote_file_exists W r s))) ≠ Verified) →
       attempt_outcome W r l
         (attempt_state W r l (N - 1) 1 (snd (remote_file_exists W r s)))
       = TransferRaised e →
       fst (download_file W r l s) = Raise e).
Proof.
  intros HN Hpos Hdelay. destruct N as [|n]; [lia|].
  replace (S n - 1)%nat with n by lia.
  split; [|split; [|split]].
  - intros Hfail. unfold connect, bind, get_self. simpl. rewrite HN, Nat2Z.id.
    destruct (connect_loop_exhausts W n 1 s) as (e & s' & He & -> & _);
      [lia | intros _; exact Hdelay | exact Hfail | eauto].
  - intros cmd h Hh Hfail.
    unfold execute_command, bind, get_self. simpl. rewrite HN, Nat2Z.id.
    destruct (execute_loop_exhausts W cmd h n 1 s) as (e & s' & He & -> & _);
      [lia | intros _; exact Hdelay | exact Hh | exact Hfail | eauto].
  - intros st err out Hst. unfold exec_attempt. simpl.
    apply Z.eqb_neq in Hst. rewrite Hst. reflexivity.
  - intros r l e Hex Hnv Hlast.
    destruct (remote_file_exists_result W r s) as (s0 & Hrun & _).
    rewrite Hrun in Hex. injection Hex as Hex.
    rewrite (download_file_exhausted W r l s n Hex HN (λ _, Hdelay) Hnv), Hlast.
    reflexivity.
Qed.

(** Three attempts allowed, two retries, all failing, for each of the three
    operations. *)
Lemma exhausted_retries_reraise_witness :
  fst (connect refusing (fresh 3))
    = Raise (Exc AuthenticationException (lit "Authentication failed."))
  ∧ fst (execute_command failing (lit "false") (connected 3))
    = Raise (Exc Exception_ (lit "Command failed with exit status 1"))
  ∧ fst (download_file dropping remote_jpg local_jpg (connected 3))
    = Raise (Exc SCPException (lit "Error receiving, socket.timeout")).
Proof.
  assert (Hdelay : sleepable 5) by (unfold sleepable, sleep_safe; lia).
  assert (Hpos : (1 ≤ 3)%nat) by lia.
  split; [|split].
  - destruct (proj1 (exhausted_retries_reraise refusing (fresh 3) 3 eq_refl
                       Hpos Hdelay)) as (e & He & ->).
    + intros i Hi. vm_compute. eauto.
    + vm_compute in He. injection He as <-. reflexivity.
  - destruct (proj1 (proj2 (exhausted_retries_reraise failing (connected 3) 3
                              eq_refl Hpos Hdelay)) (lit "false") O eq_refl)
      as (e & He & ->).
    + intros i Hi. vm_compute. exact I.
    + vm_compute in He. injection He as <-. vm_compute. reflexivity.
  - apply (proj2 (proj2 (proj2 (exhausted_retries_reraise dropping (connected 3) 3
                                  eq_refl Hpos Hdelay)))).
    + reflexivity.
    + intros [|[|i]] Hi; [vm_compute; discriminate .. | exfalso; simpl in Hi; lia].
    + vm_compute. reflexivity.
Defined.


(** * Beyond the claims *)

(** ** Footprints compose *)

Global Instance grows_preorder E : PreOrder (grows E).
Proof.
  split.
  - intros tr. exists []. split; [reflexivity | constructor].
  - intros tr1 tr2 tr3 (a1 & -> & H1) (a2 & -> & H2).
    exists (a2 ++ a1). split; [apply app_assoc | apply Forall_app; auto].
Qed.

Global Instance same_config_preorder : PreOrder same_config.
Proof.
  split.
  - intros me. repeat split.
  - intros a b c (H1 & H2 & H3 & H4 & H5 & H6) (K1 & K2 & K3 & K4 & K5 & K6).
    repeat split; congruence.
Qed.

Global Instance agree_outside_preorder P : PreOrder (agree_outside P).
Proof.
  split.
  - intros fs p _. reflexivity.
  - intros a b c H1 H2 p Hp. rewrite (H2 p Hp). apply H1, Hp.
Qed.

Global Instance footprint_preorder E F G :
  PreOrder F → PreOrder G → PreOrder (footprint E F G).
Proof.
  intros HF HG. split.
  - intros s. repeat split; reflexivity.
  - intros s1 s2 s3 (A1 & B1 & C1) (A2 & B2 & C2).
    repeat split; etransitivity; eassumption.
Qed.

Lemma grows_weaken (E E' : Event → bool) tr tr' :
  (∀ ev, E ev = true → E' ev = true) → grows E tr tr' → grows E' tr tr'.
Proof.
  intros HE (added & -> & Hall). exists added. split; [reflexivity|].
  eapply Forall_impl; [exact Hall | exact HE].
Qed.

Lemma footprint_weaken (E E' : Event → bool) (F F' : relation SSHDownloader)
    (G G' : relation (gmap Text Z)) s s' :
  (∀ ev, E ev = true → E' ev = true) →
  (∀ a b, F a b → F' a b) →
  (∀ a b, G a b → G' a b) →
  footprint E F G s s' → footprint E' F' G' s s'.
Proof.
  intros HE HF HG (A & B & C).
  repeat split; [apply HF, A | apply HG, B | exact (grows_weaken _ _ _ _ HE C)].
Qed.

(** An event kind outside [E] is called as often after as before. *)
Lemma grows_count (E p : Event → bool) tr tr' :
  (∀ ev, E ev = true → p ev = false) →
  grows E tr tr' → count_ev p tr' = count_ev p tr.
Proof.
  intros HE (added & -> & Hall).
  induction Hall as [|ev added Hev _ IH]; simpl; [reflexivity|].
  rewrite (HE ev Hev). exact IH.
Qed.

(** No event kind is called less often after than before. *)
Lemma grows_count_le (E p : Event → bool) tr tr' :
  grows E tr tr' → (count_ev p tr ≤ count_ev p tr')%nat.
Proof.
  intros (added & -> & _).
  induction added as [|ev added IH]; simpl; [lia|].
  destruct (p ev); lia.
Qed.

Section Respects.

Context (R : relation State) `{!PreOrder R}.

Lemma respects_ret {A} (a : A) : respects R (ret a).
Proof. intros s. reflexivity. Qed.

Lemma respects_raise {A} (e : exn) : respects R (@raise A e).
Proof. intros s. reflexivity. Qed.

Lemma respects_get_self : respects R get_self.
Proof. intros s. reflexivity. Qed.

Lemma respects_outcome (o : option exn) : respects R (outcome o).
Proof. intros s. destruct o; reflexivity. Qed.

Lemma respects_outcome_of {A} (o : exn + A) : respects R (outcome_of o).
Proof. intros s. destruct o; reflexivity. Qed.

Lemma respects_bind {A B} (m : M A) (k : A → M B) :
  respects R m → (∀ a, respects R (k a)) → respects R (bind m k).
Proof.
  intros Hm Hk s. unfold bind. specialize (Hm s).
  destruct (m s) as [[a|e] s1]; simpl in *; [|exact Hm].
  etransitivity; [exact Hm | apply Hk].
Qed.

Lemma respects_try_except {A} c (m : M A) (h : exn → M A) :
  respects R m → (∀ e, respects R (h e)) → respects R (try_except c m h).
Proof.
  intros Hm Hh s. unfold try_except. specialize (Hm s).
  destruct (m s) as [[a|e] s1]; simpl in *; [exact Hm|].
  destruct (isinstance e c); [|exact Hm].
  etransitivity; [exact Hm | apply Hh].
Qed.

Lemma respects_try_except2 {A} (m : M A) c1 (h1 : exn → M A) c2 (h2 : exn → M A) :
  respects R m → (∀ e, respects R (h1 e)) → (∀ e, respects R (h2 e)) →
  respects R (try_except2 m c1 h1 c2 h2).
Proof.
  intros Hm H1 H2 s. unfold try_except2. specialize (Hm s).
  destruct (m s) as [[a|e] s1]; simpl in *; [exact Hm|].
  destruct (isinstance e c1); [etransitivity; [exact Hm | apply H1]|].
  destruct (isinstance e c2); [etransitivity; [exact Hm | apply H2]|].
  exact Hm.
Qed.

Lemma respects_try_finally {A} (m : M A) (f : M unit) :
  respects R m → respects R f → respects R (try_finally m f).
Proof.
  intros Hm Hf s. unfold try_finally. specialize (Hm s).
  destruct (m s) as [r s1]. specialize (Hf s1).
  destruct (f s1) as [[u|e] s2]; simpl in *; etransitivity; eassumption.
Qed.

(** A computation that first reads the state. *)
Lemma respects_at {A} (g : State → M A) :
  (∀ x, respects R (g x)) → respects R (λ s, g s s).
Proof. intros Hg s. apply Hg. Qed.

End Respects.

Lemma respects_weaken {A} (R R' : relation State) (m : M A) :
  (∀ s s', R s s' → R' s s') → respects R m → respects R' m.
Proof. intros HR Hm s. apply HR, Hm. Qed.

Lemma respects_emit E F G ev :
  Reflexive F → Reflexive G → E ev = true →
  respects (footprint E F G) (emit ev).
Proof.
  intros HF HG HE s. repeat split; simpl; try reflexivity.
  exists [ev]. split; [reflexivity | repeat constructor; exact HE].
Qed.

Lemma footprint_add_event E F G ev s :
  Reflexive F → Reflexive G → E ev = true →
  footprint E F G s (add_event ev s).
Proof. intros HF HG HE. exact (respects_emit E F G ev HF HG HE s). Qed.

(** ** The footprint of each call to a collaborator *)

Section Primitives.

Variable W : World.
Context (E : Event → bool) (F : relation SSHDownloader)
  (G : relation (gmap Text Z)) `{!PreOrder F, !PreOrder G}.

Lemma respects_client_close h :
  E (EvClose h) = true → respects (footprint E F G) (client_close W h).
Proof.
  intros HE s. unfold client_close, bind, emit, outcome. simpl.
  destruct (close_result W (calls is_close s));
    apply footprint_add_event; (typeclasses eauto || exact HE).
Qed.

Lemma respects_exec_command cmd :
  (∀ h, E (EvExec h cmd) = true) →
  respects (footprint E F G) (exec_command W cmd).
Proof.
  intros HE s. unfold exec_command, bind, get_self, emit, outcome. simpl.
  destruct (ssh_client (self s)) as [h|]; simpl; [|reflexivity].
  destruct (ex_call (exec_result W (calls is_exec s)));
    apply footprint_add_event; (typeclasses eauto || apply HE).
Qed.

Lemma respects_open_sftp :
  (∀ h, E (EvOpenSftp h) = true) → respects (footprint E F G) (open_sftp W).
Proof.
  intros HE s. unfold open_sftp, bind, get_self, emit, outcome. simpl.
  destruct (ssh_client (self s)) as [h|]; simpl; [|reflexivity].
  destruct (open_sftp_result W (calls is_open_sftp s));
    apply footprint_add_event; (typeclasses eauto || apply HE).
Qed.

Lemma respects_sftp_stat path :
  E (EvStat path) = true → respects (footprint E F G) (sftp_stat W path).
Proof.
  intros HE s. unfold sftp_stat, bind, emit, outcome_of. simpl.
  destruct (stat_result W (calls is_stat s) path);
    apply footprint_add_event; (typeclasses eauto || exact HE).
Qed.

Lemma respects_sftp_close :
  E EvSftpClose = true → respects (footprint E F G) (sftp_close W).
Proof.
  intros HE s. unfold sftp_close, bind, emit, outcome. simpl.
  destruct (sftp_close_result W (calls is_sftp_close s));
    apply footprint_add_event; (typeclasses eauto || exact HE).
Qed.

Lemma respects_path_exists path : respects (footprint E F G) (path_exists W path).
Proof. intros s. reflexivity. Qed.

Lemma respects_getsize path : respects (footprint E F G) (getsize W path).
Proof.
  intros s. unfold getsize.
  destruct (local_fs s !! path); [reflexivity|].
  destruct (local_dir W path) as [[n e]|]; reflexivity.
Qed.

Lemma respects_sleep secs :
  E (EvSleep secs) = true → respects (footprint E F G) (sleep W secs).
Proof.
  intros HE s. destruct (sleep_outcome W secs s) as [[e ->]| ->]; simpl.
  - reflexivity.
  - apply footprint_add_event; (typeclasses eauto || exact HE).
Qed.

End Primitives.

Section PrimitivesThatWrite.

Variable W : World.
Context (E : Event → bool).

(** Making a client sets [ssh_client] and nothing else. *)
Lemma respects_new_client G `{!PreOrder G} :
  (∀ h, E (EvSSHClient h) = true) →
  respects (footprint E same_config G) (new_client).
Proof.
  intros HE s. unfold new_client. simpl.
  repeat split; simpl; try reflexivity.
  exists [EvSSHClient (calls is_new_client s)].
  split; [reflexivity | repeat constructor; apply HE].
Qed.

Lemma respects_clear_client G `{!PreOrder G} :
  respects (footprint E same_config G) (λ s, (Ret tt, set_ssh_client None s)).
Proof. intros s. repeat split; simpl; reflexivity. Qed.

(** The copy leaves a file at the local path or, when that is a directory,
    inside it; the removal removes at the local path only. *)
Lemma stored_outside n l fs p :
  ¬ stores_at W l p → stored W n l fs !! p = fs !! p.
Proof.
  intros Hp. unfold stored.
  destruct (scp_written (scp_result W n)) as [size|].
  - apply lookup_insert_ne. intros <-. apply Hp. left. reflexivity.
  - destruct (local_dir W l) as [d|] eqn:Hd; [|reflexivity].
    destruct (scp_inside W n) as [[name size]|] eqn:Hin; [|reflexivity].
    apply lookup_insert_ne. intros <-. apply Hp. right.
    exists n, name, size. rewrite Hd. eauto.
Qed.

Lemma respects_scp_get F `{!PreOrder F} r l :
  (∀ h, E (EvScpGet h r l) = true) →
  respects (footprint E F (agree_outside (stores_at W l))) (scp_get W r l).
Proof.
  intros HE s. unfold scp_get, bind, get_self, emit, outcome. simpl.
  destruct (ssh_client (self s)) as [h|]; simpl; [|reflexivity].
  assert (Hgrow : grows E (trace s) (EvScpGet h r l :: trace s)).
  { exists [EvScpGet h r l]. split; [reflexivity | repeat constructor; apply HE]. }
  destruct (scp_raises (scp_result W (calls is_scp_get s))) as [e|]; simpl;
    (split; [reflexivity|]); (split; [|exact Hgrow]);
    intros p Hp; simpl; apply stored_outside, Hp.
Qed.

Lemma respects_os_remove F `{!PreOrder F} l :
  E (EvRemove l) = true →
  respects (footprint E F (agree_outside (stores_at W l))) (os_remove W l).
Proof.
  intros HE s. unfold os_remove.
  assert (Hgrow : grows E (trace s) (EvRemove l :: trace s)).
  { exists [EvRemove l]. split; [reflexivity | repeat constructor; exact HE]. }
  destruct (local_fs s !! l).
  - destruct (remove_result W (calls is_remove s)); simpl;
      (split; [reflexivity|]); (split; [|exact Hgrow]); [reflexivity|].
    intros p Hp. simpl. apply lookup_delete_ne. intros <-. apply Hp. left.
    reflexivity.
  - destruct (local_dir W l) as [[n e]|]; simpl; [|reflexivity].
    split; [reflexivity|]. split; [reflexivity | exact Hgrow].
Qed.

End PrimitivesThatWrite.

(** One step down the structure of a computation. *)
Ltac footprint_event :=
  intros; simpl; rewrite ?bool_decide_eq_true_2 by reflexivity; reflexivity.

Ltac footprint_step :=
  first
    [ apply respects_ret; typeclasses eauto
    | apply respects_raise; typeclasses eauto
    | apply respects_get_self; typeclasses eauto
    | apply respects_outcome; typeclasses eauto
    | apply respects_outcome_of; typeclasses eauto
    | apply respects_path_exists; typeclasses eauto
    | apply respects_getsize; typeclasses eauto
    | apply respects_emit; [typeclasses eauto | typeclasses eauto | footprint_event]
    | apply respects_sleep; [typeclasses eauto | typeclasses eauto | footprint_event]
    | apply respects_client_close; [typeclasses eauto | typeclasses eauto | footprint_event]
    | apply respects_exec_command; [typeclasses eauto | typeclasses eauto | footprint_event]
    | apply respects_open_sftp; [typeclasses eauto | typeclasses eauto | footprint_event]
    | apply respects_sftp_stat; [typeclasses eauto | typeclasses eauto | footprint_event]
    | apply respects_sftp_close; [typeclasses eauto | typeclasses eauto | footprint_event]
    | apply respects_new_client; [typeclasses eauto | footprint_event]
    | apply respects_clear_client; typeclasses eauto
    | apply respects_scp_get; [typeclasses eauto | footprint_event]
    | apply respects_os_remove; [typeclasses eauto | footprint_event]
    | apply respects_bind; [typeclasses eauto | | intros ?]
    | apply respects_try_except; [typeclasses eauto | | intros ?]
    | apply respects_try_except2; [typeclasses eauto | | intros ? | intros ?]
    | apply respects_try_finally; [typeclasses eauto | | ]
    | match goal with
      | |- respects _ (if ?b then _ else _) => destruct b
      | |- respects _ (match ?x with _ => _ end) => destruct x
      end ].

Ltac footprint_steps := cbv zeta; repeat (footprint_step; cbv zeta).

(** ** What each operation may touch *)

Section Footprints.

Variable W : World.

(** [execute_command] does nothing to the outside but run the command it
    was given, log and sleep. *)
Lemma execute_command_respects cmd :
  respects (footprint (command_events cmd) eq eq) (execute_command W cmd).
Proof.
  assert (Hiter : ∀ a, respects (footprint (command_events cmd) eq eq)
                         (execute_iter W a cmd)).
  { intros a. unfold execute_iter, execute_try, log.
    footprint_steps. }
  assert (Hloop : ∀ n a, respects (footprint (command_events cmd) eq eq)
                           (execute_loop W n a cmd)).
  { induction n as [|n IH]; intros a; simpl; footprint_steps; auto. }
  unfold execute_command. footprint_steps. apply Hloop.
Qed.

(** [remote_file_exists] only opens a channel, stats the path it was given,
    closes the channel and logs. *)
Lemma remote_file_exists_respects r :
  respects (footprint (check_events r) eq eq) (remote_file_exists W r).
Proof. unfold remote_file_exists, log. footprint_steps. Qed.

(** [download_file] removes at its local path only, and copies to it or,
    when it is a directory, into it. *)
Lemma download_file_respects r l :
  respects (footprint (download_events r l) eq (agree_outside (stores_at W l)))
    (download_file W r l).
Proof.
  assert (Hcheck : respects (footprint (download_events r l) eq
                               (agree_outside (stores_at W l)))
                     (remote_file_exists W r)).
  { eapply respects_weaken; [|apply remote_file_exists_respects].
    intros s s'. apply footprint_weaken.
    - intros [] Hev; try discriminate Hev; try reflexivity; exact Hev.
    - auto.
    - intros a b ->. reflexivity. }
  assert (Hiter : ∀ a, respects (footprint (download_events r l) eq
                                  (agree_outside (stores_at W l)))
                         (download_iter W a r l)).
  { intros a.
    unfold download_iter, download_try, download_attempt, verify, log.
    footprint_steps. }
  assert (Hloop : ∀ n a, respects (footprint (download_events r l) eq
                                    (agree_outside (stores_at W l)))
                           (download_loop W n a r l)).
  { induction n as [|n IH]; intros a; simpl; footprint_steps; auto. }
  unfold download_file, log. footprint_steps; auto.
Qed.

(** [close] and [connect] keep the configuration and the local files. *)
Lemma close_respects :
  respects (footprint connect_events same_config eq) (close W).
Proof. unfold close, log. footprint_steps. Qed.

Lemma connect_respects :
  respects (footprint connect_events same_config eq) (connect W).
Proof.
  assert (Hiter : ∀ a, respects (footprint connect_events same_config eq)
                         (connect_iter W a)).
  { intros a.
    unfold connect_iter, connect_try, load_system_host_keys,
      set_missing_host_key_policy, client_connect, log.
    footprint_steps; try apply close_respects. }
  assert (Hloop : ∀ n a, respects (footprint connect_events same_config eq)
                           (connect_loop W n a)).
  { induction n as [|n IH]; intros a; simpl; footprint_steps; auto. }
  unfold connect. footprint_steps. apply Hloop.
Qed.

End Footprints.

(** ** Frame properties *)





(** ** SFTP channels *)


(** X5: a download attempt closes the channel it opened for the size only
    when [stat] succeeded.  When [stat] raises, the attempt ends with the
    channel opened and not closed, and without having copied anything; the
    exception is raised to the caller at the last attempt, and before that
    the loop goes on to the next attempt, provided [time.sleep] takes
    [retry_delay]. *)
Theorem download_attempt_leaves_channel_open (W : World) (a : Z) (r l : Text)
    (s : State) (h : Handle) (e : exn) :
  ssh_client (self s) = Some h →
  open_sftp_result W (calls is_open_sftp s) = None →
  stat_result W (calls is_stat s) r = inl e →
  let s' := snd (download_iter W a r l s) in
  calls is_open_sftp s' = S (calls is_open_sftp s)
  ∧ calls is_sftp_close s' = calls is_sftp_close s
  ∧ calls is_scp_get s' = calls is_scp_get s
  ∧ (a = max_retries (self s) → fst (download_iter W a r l s) = Raise e)
  ∧ (a ≠ max_retries (self s) → sleepable (retry_delay (self s)) →
     fst (download_iter W a r l s) = Ret None).
Proof.
  unfold download_iter, download_try, download_attempt, open_sftp, sftp_stat, calls.
  destruct s as [[hn p u pw mr rd c] fs tr]; simpl. intros -> Hopen Hstat. run.
  rewrite Hopen. run. rewrite Hstat. run.
  rewrite isinstance_Exception.
  destruct (isinstance e SCPException); run;
    (destruct (a =? mr) eqn:Hlast; run;
     [ repeat split; auto; intros Hne; apply Z.eqb_eq in Hlast; contradiction
     | apply Z.eqb_neq in Hlast;
       (split; [sleep_cases; reflexivity|]);
       (split; [sleep_cases; reflexivity|]);
       (split; [sleep_cases; reflexivity|]);
       (split; [intros Heq; contradiction|]);
       intros _ Hdelay; rewrite (sleep_sleepable W _ _ Hdelay); reflexivity ]).
Qed.

Lemma download_attempt_leaves_channel_open_witness :
  calls is_open_sftp (snd (download_iter missing 1 remote_jpg local_jpg (connected 3)))
    = 1%nat
  ∧ calls is_sftp_close (snd (download_iter missing 1 remote_jpg local_jpg (connected 3)))
    = 0%nat.
Proof.
  destruct (download_attempt_leaves_channel_open missing 1 remote_jpg local_jpg
              (connected 3) O (Exc FileNotFoundError (lit "[Errno 2] No such file"))
              eq_refl eq_refl eq_refl) as (H1 & H2 & _).
  split; [exact H1 | exact H2].
Defined.

(** ** What [True] from download_file means *)

Section DownloadTrue.

Variable W : World.

Lemma verdict_verified l size fs removes :
  verdict W l size fs removes = Verified → getsize_is W l size fs.
Proof.
  unfold verdict, getsize_is.
  destruct (fs !! l) as [n|].
  - destruct (n =? size) eqn:Hn;
      [intros _; left; f_equal; apply Z.eqb_eq, Hn|].
    destruct (remove_result W removes); discriminate.
  - destruct (local_dir W l) as [[n e]|]; [|discriminate].
    destruct (n =? size) eqn:Hn; [|discriminate].
    intros _. right. split; [reflexivity|]. exists e.
    apply Z.eqb_eq in Hn. rewrite Hn. reflexivity.
Qed.

(** An iteration that returns [True] has issued one [stat], and what is at
    the local path has the size that [stat] reported. *)
Lemma download_iter_true a r l s :
  fst (download_iter W a r l s) = Ret (Some true) →
  let s' := snd (download_iter W a r l s) in
  ∃ attr, stat_result W (calls is_stat s) r = inr attr
          ∧ calls is_stat s' = S (calls is_stat s)
          ∧ getsize_is W l (st_size attr) (local_fs s').
Proof.
  intros Htrue.
  destruct (download_iter_calls W a r l s) as (_ & _ & Hiter).
  destruct (Hiter Htrue) as (Hok & ->).
  destruct (download_attempt_result W a r l s)
    as (s1 & -> & _ & _ & _ & _ & _ & Hver).
  destruct (Hver Hok) as (Hfs & Hst & attr & Hstat & Hverdict).
  simpl. exists attr. split; [exact Hstat|]. split; [exact Hst|].
  rewrite Hfs. exact (verdict_verified _ _ _ _ Hverdict).
Qed.

Lemma download_loop_true r l n : ∀ a s,
  fst (download_loop W n a r l s) = Ret true →
  let s' := snd (download_loop W n a r l s) in
  ∃ k attr, (calls is_stat s ≤ k < calls is_stat s')%nat
            ∧ stat_result W k r = inr attr
            ∧ getsize_is W l (st_size attr) (local_fs s').
Proof.
  induction n as [|n IH]; intros a s; simpl; [discriminate|].
  unfold bind.
  pose proof (download_iter_true a r l s) as Hiter.
  pose proof (proj1 (proj2 (download_iter_calls W a r l s))) as Hmono.
  destruct (download_iter W a r l s) as [[[[|]|]|e] s1]; simpl in *;
    try discriminate.
  - intros _. destruct (Hiter eq_refl) as (attr & Hstat & Hst & Hfs).
    exists (calls is_stat s), attr. split; [lia|]. split; assumption.
  - intros Htrue. destruct (IH (a + 1) s1 Htrue) as (k & attr & Hk & Hstat & Hfs).
    exists k, attr. split; [lia|]. split; assumption.
Qed.

End DownloadTrue.

(** X6: [download_file] returns [True] only when what
    [os.path.getsize(local_path)] reports is the size that a [stat] issued
    during the call reported for [remote_path]: a regular file of that size
    is at [local_path], or [local_path] is a directory for which that size
    is reported.  So when [local_path] is not a directory, [True] means that
    a file of the size found on the remote side is at [local_path]. *)
Theorem download_file_true_means_verified (W : World) (r l : Text) (s : State) :
  fst (download_file W r l s) = Ret true →
  let s' := snd (download_file W r l s) in
  ∃ k attr,
    (calls is_stat s ≤ k < calls is_stat s')%nat
    ∧ stat_result W k r = inr attr
    ∧ getsize_is W l (st_size attr) (local_fs s')
    ∧ (local_dir W l = None → local_fs s' !! l = Some (st_size attr)).
Proof.
  destruct (exists_outcome W r s) eqn:Hex.
  - rewrite (download_file_passes W r l s Hex). intros Htrue.
    destruct (download_loop_true W r l _ _ _ Htrue) as (k & attr & Hk & Hstat & Hfs).
    pose proof (remote_file_exists_respects W r s) as (_ & _ & Hgrow).
    assert (Hmono : (calls is_stat s
                     ≤ calls is_stat (snd (remote_file_exists W r s)))%nat)
      by exact (grows_count_le _ is_stat _ _ Hgrow).
    cbv zeta. exists k, attr. split; [lia|]. split; [exact Hstat|].
    split; [exact Hfs|].
    intros Hdir. destruct Hfs as [Hfile|(_ & e & Hd)]; [exact Hfile|].
    rewrite Hdir in Hd. discriminate Hd.
  - rewrite (download_file_fails_fast W r l s Hex). discriminate.
Qed.

(** In the calm world the one [stat] of the download loop, the second of the
    call, reports the 10 bytes that are then at the local path. *)
Lemma download_file_true_means_verified_witness :
  ∃ k attr,
    (0 ≤ k < 2)%nat
    ∧ stat_result calm k remote_jpg = inr attr
    ∧ local_fs (snd (download_file calm remote_jpg local_jpg (connected 3)))
        !! local_jpg = Some (st_size attr).
Proof.
  destruct (download_file_true_means_verified calm remote_jpg local_jpg
              (connected 3)) as (k & attr & Hk & Hstat & _ & Hfile).
  - vm_compute. reflexivity.
  - exists k, attr. split; [exact Hk|]. split; [exact Hstat|].
    apply Hfile. reflexivity.
Defined.

(** ** Bounded retries *)

Section Bounds.

Variable W : World.

Lemma connect_iter_one_client a s :
  calls is_new_client (snd (connect_iter W a s)) = S (calls is_new_client s).
Proof.
  unfold connect_iter, connect_try, new_client, load_system_host_keys,
    set_missing_host_key_policy, client_connect, calls.
  destruct s as [me fs tr]; simpl. run.
  destruct (load_keys_result W (count_ev is_new_client tr)) as [e|]; run.
  - rewrite isinstance_Exception. run. destruct (a =? max_retries me); run;
      [reflexivity|].
    sleep_cases; run; [reflexivity|].
    rewrite close_spec. simpl. unfold close_trace, calls. simpl.
    destruct (close_result W (count_ev is_close tr)); reflexivity.
  - destruct (connect_result W (count_ev is_new_client tr)) as [e|]; run;
      [|reflexivity].
    rewrite isinstance_Exception. run. destruct (a =? max_retries me); run;
      [reflexivity|].
    sleep_cases; run; [reflexivity|].
    rewrite close_spec. simpl. unfold close_trace, calls. simpl.
    destruct (close_result W (count_ev is_close tr)); reflexivity.
Qed.

Lemma connect_loop_clients n : ∀ a s,
  (calls is_new_client (snd (connect_loop W n a s)) ≤ calls is_new_client s + n)%nat.
Proof.
  induction n as [|n IH]; intros a s; simpl; [lia|].
  unfold bind. pose proof (connect_iter_one_client a s) as H1.
  destruct (connect_iter W a s) as [[[u|]|e] s1]; simpl in *; try lia.
  specialize (IH (a + 1) s1). lia.
Qed.

Ltac last_or_not :=
  match goal with
  | |- context [(?a =? ?mr)%Z] => destruct (a =? mr); run; try (sleep_cases; run)
  end.

Lemma execute_iter_one_call a cmd s :
  (calls is_exec (snd (execute_iter W a cmd s)) ≤ S (calls is_exec s))%nat.
Proof.
  unfold execute_iter, execute_try, exec_command, calls.
  destruct s as [[hn p u pw mr rd [h|]] fs tr]; simpl; run;
    [|last_or_not; lia].
  destruct (exec_result W (count_ev is_exec tr)) as [[e|] st err out]; run;
    [rewrite isinstance_Exception; run; last_or_not; lia|].
  destruct st as [e|st]; run;
    [rewrite isinstance_Exception; run; last_or_not; lia|].
  destruct err as [e|err]; run;
    [rewrite isinstance_Exception; run; last_or_not; lia|].
  destruct (nonempty (strip err)); run;
    (destruct (st =? 0); run;
     [destruct out as [e|out]; run;
      [rewrite isinstance_Exception; run; last_or_not; lia | lia]
     | last_or_not; lia]).
Qed.

Lemma execute_loop_calls cmd n : ∀ a s,
  (calls is_exec (snd (execute_loop W n a cmd s)) ≤ calls is_exec s + n)%nat.
Proof.
  induction n as [|n IH]; intros a s; simpl; [lia|].
  unfold bind. pose proof (execute_iter_one_call a cmd s) as H1.
  destruct (execute_iter W a cmd s) as [[[v|]|e] s1]; simpl in *; try lia.
  specialize (IH (a + 1) s1). lia.
Qed.

End Bounds.

(** X7: no operation tries more than [max_retries] times, whatever the
    world does: [connect] makes at most [max_retries] clients,
    [execute_command] runs the command at most [max_retries] times and
    [download_file] copies at most [max_retries] times (none of them at all
    when [max_retries] is zero or negative). *)
Theorem retries_are_bounded (W : World) (s : State) :
  let N := Z.to_nat (max_retries (self s)) in
  (calls is_new_client (snd (connect W s)) ≤ calls is_new_client s + N)%nat
  ∧ (∀ cmd,
       (calls is_exec (snd (execute_command W cmd s)) ≤ calls is_exec s + N)%nat)
  ∧ (∀ r l,
       (calls is_scp_get (snd (download_file W r l s)) ≤ calls is_scp_get s + N)%nat).
Proof.
  simpl. split; [|split].
  - unfold connect, bind, get_self. simpl. apply connect_loop_clients.
  - intros cmd. unfold execute_command, bind, get_self. simpl.
    apply execute_loop_calls.
  - intros r l.
    destruct (remote_file_exists_result W r s) as (s0 & Hrun & Hself & _ & Hscp & _).
    destruct (exists_outcome W r s) eqn:Hex.
    + rewrite (download_file_passes W r l s Hex), Hrun. simpl snd at 2.
      pose proof (download_loop_scp_calls W r l
                    (Z.to_nat (max_retries (self s))) 1 s0). lia.
    + rewrite (download_file_fails_fast W r l s Hex), Hrun. simpl.
      unfold calls in *. simpl. lia.
Qed.

(** ** A session that is not connected *)

Section Unconnected.

Variable W : World.

Lemma execute_iter_unconnected a cmd s :
  ssh_client (self s) = None →
  (a ≠ max_retries (self s) → sleepable (retry_delay (self s))) →
  ∃ s', execute_iter W a cmd s =
          (if a =? max_retries (self s)
           then Raise (none_has_no "exec_command") else Ret None, s')
        ∧ self s' = self s
        ∧ calls is_exec s' = calls is_exec s
        ∧ calls is_sleep s' =
            (calls is_sleep s + if (a =? max_retries (self s))%Z then 0 else 1)%nat.
Proof.
  unfold execute_iter, execute_try, exec_command, calls.
  destruct s as [[hn p u pw mr rd c] fs tr]; simpl. intros -> Hdelay. run.
  destruct (a =? mr) eqn:Hlast; run;
    [| rewrite (sleep_sleepable W _ _ (Hdelay (proj1 (Z.eqb_neq _ _) Hlast))); run];
    eexists; (split; [reflexivity|]); simpl; repeat split; lia.
Qed.

Lemma execute_loop_unconnected cmd n : ∀ a s,
  ssh_client (self s) = None →
  a + Z.of_nat (S n) = max_retries (self s) + 1 →
  ((0 < n)%nat → sleepable (retry_delay (self s))) →
  ∃ s', execute_loop W (S n) a cmd s = (Raise (none_has_no "exec_command"), s')
        ∧ calls is_exec s' = calls is_exec s
        ∧ calls is_sleep s' = (calls is_sleep s + n)%nat.
Proof.
  induction n as [|n IH]; intros a s Hc Ha Hdelay;
    (destruct (execute_iter_unconnected a cmd s Hc)
       as (s1 & Hrun & Hself & Hex & Hsl); [intros Hne; apply Hdelay; lia|]).
  - simpl. unfold bind. rewrite Hrun.
    replace (a =? max_retries (self s)) with true in *
      by (symmetry; apply Z.eqb_eq; lia).
    exists s1. repeat split; [exact Hex | lia].
  - replace (a =? max_retries (self s)) with false in *
      by (symmetry; apply Z.eqb_neq; lia).
    destruct (IH (a + 1) s1) as (s2 & Hrun2 & Hex2 & Hsl2).
    + rewrite Hself. exact Hc.
    + rewrite Hself. lia.
    + intros _. rewrite Hself. apply Hdelay. lia.
    + exists s2.
      change (execute_loop W (S (S n)) a cmd s)
        with (bind (execute_iter W a cmd) (fun r => match r with
                | Some v => ret v
                | None => execute_loop W (S n) (a + 1) cmd end) s).
      unfold bind at 1. rewrite Hrun, Hrun2.
      repeat split; lia.
Qed.

End Unconnected.

(** X8: [execute_command] on a session that holds no handle (never
    connected, or closed), with [max_retries = N >= 1] and a [retry_delay]
    that [time.sleep] takes, does not fail at once: it goes through all [N]
    attempts, sleeping between them, runs nothing, and then raises the
    [AttributeError] of the missing handle. *)
Theorem execute_command_unconnected (W : World) (cmd : Text) (s : State)
    (N : nat) :
  ssh_client (self s) = None →
  max_retries (self s) = Z.of_nat N →
  (1 ≤ N)%nat →
  sleepable (retry_delay (self s)) →
  let s' := snd (execute_command W cmd s) in
  fst (execute_command W cmd s)
    = Raise (Exc AttributeError
               (lit "'NoneType' object has no attribute 'exec_command'"))
  ∧ calls is_exec s' = calls is_exec s
  ∧ calls is_sleep s' = (calls is_sleep s + (N - 1))%nat.
Proof.
  intros Hc HN Hpos Hdelay. unfold execute_command, bind, get_self. simpl.
  rewrite HN, Nat2Z.id. destruct N as [|n]; [lia|].
  destruct (execute_loop_unconnected W cmd n 1 s Hc) as (s' & -> & Hex & Hsl);
    [lia | intros _; exact Hdelay |].
  simpl. repeat split; [exact Hex | lia].
Qed.

Lemma execute_command_unconnected_witness :
  fst (execute_command calm (lit "echo ok") (fresh 3))
    = Raise (Exc AttributeError
               (lit "'NoneType' object has no attribute 'exec_command'"))
  ∧ calls is_sleep (snd (execute_command calm (lit "echo ok") (fresh 3))) = 2%nat.
Proof.
  destruct (execute_command_unconnected calm (lit "echo ok") (fresh 3) 3
              eq_refl eq_refl) as (H1 & _ & H3).
  - repeat constructor.
  - unfold sleepable, sleep_safe. simpl. lia.
  - split; [exact H1 | exact H3].
Defined.

(** X9: [download_file] on a session that holds no handle returns [False]
    and raises nothing, whatever [max_retries] is: the existence check turns
    the [AttributeError] into [False], so the call logs that error and that
    the remote file does not exist, and does nothing else. *)
Theorem download_file_unconnected (W : World) (r l : Text) (s : State) :
  ssh_client (self s) = None →
  download_file W r l s
  = (Ret false,
     add_event (EvLog ERROR (lit "Remote file does not exist: " ++ r))
       (add_event
          (EvLog ERROR
             (lit "Error checking remote file existence: "
              ++ lit "'NoneType' object has no attribute 'open_sftp'"))
          s)).
Proof.
  intros Hc.
  assert (Hex : exists_outcome W r s = false)
    by (unfold exists_outcome; rewrite Hc; reflexivity).
  rewrite (download_file_fails_fast W r l s Hex). do 2 f_equal.
  unfold remote_file_exists, open_sftp.
  destruct s as [[hn p u pw mr rd c] fs tr]; simpl in *. subst c. run.
  reflexivity.
Qed.

Lemma download_file_unconnected_witness :
  fst (download_file calm remote_jpg local_jpg (fresh 3)) = Ret false.
Proof.
  rewrite (download_file_unconnected calm remote_jpg local_jpg (fresh 3) eq_refl).
  reflexivity.
Defined.

(** ** Sleeping between attempts *)

Section Sleeps.

Variable W : World.

Lemma connect_iter_sleeps a s :
  (is_Some (conn_failure W (calls is_new_client s)) →
   a ≠ max_retries (self s) → sleepable (retry_delay (self s))) →
  sleeps (trace (snd (connect_iter W a s)))
  = (match conn_failure W (calls is_new_client s) with
     | Some _ => if a =? max_retries (self s) then [] else [retry_delay (self s)]
     | None => []
     end) ++ sleeps (trace s).
Proof.
  unfold conn_failure, connect_iter, connect_try, new_client, load_system_host_keys,
    set_missing_host_key_policy, client_connect, calls.
  destruct s as [me fs tr]; simpl. intros Hdelay. run.
  destruct (load_keys_result W (count_ev is_new_client tr)) as [e|] eqn:Hload;
    rewrite ?Hload in Hdelay; run.
  - rewrite isinstance_Exception. run. destruct (a =? max_retries me) eqn:Hlast; run;
      [reflexivity|].
    rewrite (sleep_sleepable W _ _ (Hdelay (mk_is_Some _ _ eq_refl) (proj1 (Z.eqb_neq _ _) Hlast))). run.
    rewrite close_spec. simpl. unfold close_trace, calls. simpl.
    destruct (close_result W (count_ev is_close tr)); reflexivity.
  - destruct (connect_result W (count_ev is_new_client tr)) as [e|] eqn:Hconn;
      rewrite ?Hconn in Hdelay; run; [|reflexivity].
    rewrite isinstance_Exception. run. destruct (a =? max_retries me) eqn:Hlast; run;
      [reflexivity|].
    rewrite (sleep_sleepable W _ _ (Hdelay (mk_is_Some _ _ eq_refl) (proj1 (Z.eqb_neq _ _) Hlast))). run.
    rewrite close_spec. simpl. unfold close_trace, calls. simpl.
    destruct (close_result W (count_ev is_close tr)); reflexivity.
Qed.

Lemma replicate_snoc_cons {A} (x : A) n l :
  replicate n x ++ x :: l = x :: replicate n x ++ l.
Proof. induction n as [|n IH]; simpl; [reflexivity | rewrite IH; reflexivity]. Qed.

Lemma connect_loop_succeeds_sleeps k : ∀ n a s,
  (k < n)%nat →
  a + Z.of_nat n = max_retries (self s) + 1 →
  ((0 < k)%nat → sleepable (retry_delay (self s))) →
  (∀ i, (i < k)%nat → is_Some (conn_failure W (calls is_new_client s + i)%nat)) →
  conn_failure W (calls is_new_client s + k)%nat = None →
  sleeps (trace (snd (connect_loop W n a s)))
  = replicate k (retry_delay (self s)) ++ sleeps (trace s).
Proof.
  induction k as [|k IH]; intros n a s Hk Ha Hdelay Hfail Hok;
    (destruct n as [|n]; [lia|]); simpl; unfold bind;
    (assert (Hsl := connect_iter_sleeps a s);
     specialize (Hsl ltac:(intros [e0 He0] _;
                            first [ apply Hdelay; lia
                                  | exfalso; rewrite Nat.add_0_r in Hok;
                                    congruence ]))).
  - rewrite Nat.add_0_r in Hok. rewrite Hok in Hsl.
    destruct (connect_iter_ok W a s Hok) as (s' & Hrun & _).
    rewrite Hrun in Hsl |- *. exact Hsl.
  - destruct (Hfail O ltac:(lia)) as [e He]. rewrite Nat.add_0_r in He.
    rewrite He in Hsl.
    replace (a =? max_retries (self s)) with false in Hsl
      by (symmetry; apply Z.eqb_neq; lia).
    destruct (connect_iter_retry W a s e He ltac:(lia) (Hdelay ltac:(lia)))
      as (s' & Hrun & Hself & _ & Hn & _).
    rewrite Hrun in Hsl |- *. simpl in Hsl.
    rewrite (IH n (a + 1) s'), Hsl, Hself.
    + change (retry_delay (with_client None (self s))) with (retry_delay (self s)).
      apply replicate_snoc_cons.
    + lia.
    + rewrite Hself, max_retries_with_client. lia.
    + intros _. rewrite Hself, retry_delay_with_client. apply Hdelay. lia.
    + intros i Hi. rewrite Hn.
      replace (S (calls is_new_client s) + i)%nat
        with (calls is_new_client s + S i)%nat by lia.
      apply Hfail. lia.
    + rewrite Hn.
      replace (S (calls is_new_client s) + k)%nat
        with (calls is_new_client s + S k)%nat by lia.
      exact Hok.
Qed.

Lemma connect_loop_exhausts_sleeps n : ∀ a s,
  a + Z.of_nat (S n) = max_retries (self s) + 1 →
  ((0 < n)%nat → sleepable (retry_delay (self s))) →
  (∀ i, (i < S n)%nat → is_Some (conn_failure W (calls is_new_client s + i)%nat)) →
  sleeps (trace (snd (connect_loop W (S n) a s)))
  = replicate n (retry_delay (self s)) ++ sleeps (trace s).
Proof.
  induction n as [|n IH]; intros a s Ha Hdelay Hfail;
    destruct (Hfail O ltac:(lia)) as [e He]; rewrite Nat.add_0_r in He;
    (assert (Hsl := connect_iter_sleeps a s);
     specialize (Hsl ltac:(intros _ Hne; apply Hdelay; lia))); rewrite He in Hsl.
  - replace (a =? max_retries (self s)) with true in Hsl
      by (symmetry; apply Z.eqb_eq; lia).
    destruct (connect_iter_last W a s e He ltac:(lia)) as (s' & Hrun & _).
    simpl. unfold bind. rewrite Hrun in Hsl |- *. exact Hsl.
  - replace (a =? max_retries (self s)) with false in Hsl
      by (symmetry; apply Z.eqb_neq; lia).
    destruct (connect_iter_retry W a s e He ltac:(lia) (Hdelay ltac:(lia)))
      as (s' & Hrun & Hself & _ & Hn & _).
    change (connect_loop W (S (S n)) a s)
      with (bind (connect_iter W a) (fun r => match r with
              | Some _ => ret tt
              | None => connect_loop W (S n) (a + 1) end) s).
    unfold bind at 1. rewrite Hrun in Hsl |- *. simpl in Hsl.
    rewrite (IH (a + 1) s'), Hsl, Hself.
    + change (retry_delay (with_client None (self s))) with (retry_delay (self s)).
      apply replicate_snoc_cons.
    + rewrite Hself, max_retries_with_client. lia.
    + intros _. rewrite Hself, retry_delay_with_client. apply Hdelay. lia.
    + intros i Hi. rewrite Hn.
      replace (S (calls is_new_client s) + i)%nat
        with (calls is_new_client s + S i)%nat by lia.
      apply Hfail. lia.
Qed.

End Sleeps.

(** X10: when [retry_delay] is a delay that [time.sleep] takes, [connect]
    sleeps [retry_delay] once after every failed attempt but the last one
    allowed, and at no other time.  With [max_retries = N >= 1], a call whose
    attempts all fail sleeps [N - 1] times before it raises, and a call whose
    first success is attempt [k] has slept [k - 1] times. *)
Theorem connect_sleeps_between_attempts (W : World) (s : State) (N : nat) :
  max_retries (self s) = Z.of_nat N →
  (1 ≤ N)%nat →
  sleepable (retry_delay (self s)) →
  let h0 := calls is_new_client s in
  let d := retry_delay (self s) in
  ((∀ i, (i < N)%nat → is_Some (conn_failure W (h0 + i)%nat)) →
     sleeps (trace (snd (connect W s))) = replicate (N - 1) d ++ sleeps (trace s))
  ∧ (∀ k, (1 ≤ k ≤ N)%nat →
       (∀ i, (i < k - 1)%nat → is_Some (conn_failure W (h0 + i)%nat)) →
       conn_failure W (h0 + (k - 1))%nat = None →
       sleeps (trace (snd (connect W s))) = replicate (k - 1) d ++ sleeps (trace s)).
Proof.
  intros HN Hpos Hdelay h0 d. unfold connect, bind, get_self. simpl.
  rewrite HN, Nat2Z.id. split.
  - intros Hfail. destruct N as [|n]; [lia|].
    replace (S n - 1)%nat with n by lia.
    apply connect_loop_exhausts_sleeps; [lia | intros _; exact Hdelay | exact Hfail].
  - intros k Hk Hfail Hok.
    apply connect_loop_succeeds_sleeps; try assumption; try lia.
    intros _; exact Hdelay.
Qed.

(** Two refusals, then a connection: two sleeps of 5 seconds. *)
Lemma connect_sleeps_between_attempts_witness :
  sleeps (trace (snd (connect flaky (fresh 3)))) = [5; 5]
  ∧ sleeps (trace (snd (connect refusing (fresh 3)))) = [5; 5].
Proof.
  split.
  - refine (proj2 (connect_sleeps_between_attempts flaky (fresh 3) 3 eq_refl _ _)
              3%nat _ _ _).
    + repeat constructor.
    + unfold sleepable, sleep_safe. simpl. lia.
    + split; repeat constructor.
    + intros [|[|i]] Hi; [vm_compute; eauto .. | exfalso; simpl in Hi; lia].
    + reflexivity.
  - refine (proj1 (connect_sleeps_between_attempts refusing (fresh 3) 3 eq_refl _ _)
              _).
    + repeat constructor.
    + unfold sleepable, sleep_safe. simpl. lia.
    + intros i Hi. vm_compute. eauto.
Defined.

(** ** The with statement *)

Global Instance any_files_preorder : PreOrder any_files.
Proof. split; intros ?; intros; exact I. Qed.

(** ** The with statement *)

Section WithStatement.

Variable W : World.
Context {A : Type}.

Lemma with_downloader_connected (body : M A) s s1 :
  connect W s = (Ret tt, s1) →
  with_downloader W body s = (fst (body s1), snd (close W (snd (body s1)))).
Proof.
  intros Hconn. unfold with_downloader, __enter__, __exit__, bind, get_self.
  simpl. rewrite Hconn. simpl. destruct (body s1) as [r s2]; simpl.
  rewrite close_spec. reflexivity.
Qed.

Lemma with_downloader_refused (body : M A) s e s1 :
  connect W s = (Raise e, s1) →
  with_downloader W body s = (Raise e, s1).
Proof.
  intros Hconn. unfold with_downloader, __enter__, __exit__, bind, get_self.
  simpl. rewrite Hconn. reflexivity.
Qed.

End WithStatement.

(** X11: [with SSHDownloader(...) as downloader: body].  If [connect]
    raises, the exception leaves the statement, the body is not run and
    [close] is not called.  Otherwise the body runs in the state [connect]
    left, [close] runs after it however it ended, the outcome of the
    statement is the outcome of the body -- value or exception, never
    swallowed -- and the session ends without a handle. *)
Theorem with_downloader_spec (W : World) {A} (body : M A) (s : State) :
  let s1 := snd (connect W s) in
  match fst (connect W s) with
  | Raise e => with_downloader W body s = (Raise e, s1)
  | Ret _ =>
      with_downloader W body s = (fst (body s1), snd (close W (snd (body s1))))
      ∧ ssh_client (self (snd (with_downloader W body s))) = None
  end.
Proof.
  unfold with_downloader, __enter__, __exit__, bind, get_self. simpl.
  destruct (connect W s) as [[u|e] s1]; simpl; [|reflexivity].
  destruct (body s1) as [r s2]; simpl.
  rewrite close_spec. simpl. split; reflexivity.
Qed.

(** ** main *)

Section Main.

Variable W : World.

Lemma os_makedirs_respects R `{!PreOrder R} host n path :
  respects R (os_makedirs host n path).
Proof. unfold os_makedirs. apply respects_outcome. typeclasses eauto. Qed.

Lemma download_side_respects host epoch n side success :
  respects (footprint session_events eq any_files)
    (download_side W host epoch n side success).
Proof.
  unfold download_side, log. cbv zeta.
  apply respects_bind; [typeclasses eauto | apply os_makedirs_respects; typeclasses eauto |].
  intros _. apply respects_bind; [typeclasses eauto | | intros ok].
  - eapply respects_weaken; [|apply download_file_respects].
    intros s s'. apply footprint_weaken; auto.
    + intros [] Hev; try discriminate Hev; reflexivity.
    + intros; exact I.
  - footprint_steps.
Qed.

Lemma for_sides_respects host epoch sides : ∀ n success,
  respects (footprint session_events eq any_files)
    (for_sides W host epoch n sides success).
Proof.
  induction sides as [|side rest IH]; intros n success; simpl.
  - apply respects_ret. typeclasses eauto.
  - apply respects_bind; [typeclasses eauto | apply download_side_respects |].
    intros success'. apply IH.
Qed.

(** The block of the [with] statement neither makes nor closes a client and
    leaves the object as it was. *)
Lemma snapshot_session_respects host epoch :
  respects (footprint session_events eq any_files) (snapshot_session W host epoch).
Proof.
  unfold snapshot_session, log.
  apply respects_bind; [typeclasses eauto | footprint_steps | intros _].
  apply respects_bind; [typeclasses eauto | | intros _].
  - eapply respects_weaken; [|apply execute_command_respects].
    intros s s'. apply footprint_weaken; auto.
    + intros [] Hev; try discriminate Hev; reflexivity.
    + intros; exact I.
  - apply respects_bind; [typeclasses eauto | footprint_steps | intros _].
    apply respects_bind; [typeclasses eauto | apply for_sides_respects | intros ok].
    footprint_steps.
Qed.

(** The delays of [main], 10 and 15 seconds, are delays [time.sleep]
    takes. *)
Lemma main_retry_delay s : sleepable (retry_delay (self (main_start s))).
Proof. unfold sleepable, sleep_safe. simpl. lia. Qed.


(** [main] once its first two directories are made. *)
Lemma main_after_makedirs host s :
  makedirs_result host 0 (path_join base_local_dir (lit "left")) = None →
  makedirs_result host 1 (path_join base_local_dir (lit "right")) = None →
  main W host s =
    try_except Exception_
      (with_downloader W (snapshot_session W host (time_now host)))
      (fun e =>
         log ERROR (lit "Critical error in main process: " ++ exc_msg e) ;;
         raise e)
      (main_start s).
Proof.
  intros H0 H1. unfold main, os_makedirs. rewrite H0, H1. reflexivity.
Qed.

End Main.

Section MainFacts.

Variable W : World.

(** What [main] leaves when the connection was made at attempt [k + 1]:
    the outcome of the block, and the state after [close] and, for an
    exception, after the line in the log. *)
Lemma main_connected host s k :
  makedirs_result host 0 (path_join base_local_dir (lit "left")) = None →
  makedirs_result host 1 (path_join base_local_dir (lit "right")) = None →
  (k < 5)%nat →
  (∀ i, (i < k)%nat → is_Some (conn_failure W (calls is_new_client s + i)%nat)) →
  conn_failure W (calls is_new_client s + k)%nat = None →
  ∃ s1 r s2,
    connect W (main_start s) = (Ret tt, s1)
    ∧ self s1 = with_client (Some (calls is_new_client s + k)%nat) main_downloader
    ∧ local_fs s1 = local_fs s
    ∧ calls is_new_client s1 = (calls is_new_client s + S k)%nat
    ∧ calls is_close s1 = (calls is_close s + k)%nat
    ∧ snapshot_session W host (time_now host) s1 = (r, s2)
    ∧ self s2 = self s1
    ∧ grows session_events (trace s1) (trace s2)
    ∧ main W host s =
        (r,
         let s3 := mkState (disconnected (self s2)) (local_fs s2)
                     (EvLog match close_result W (calls is_close s2) with
                            | None => INFO | Some _ => ERROR end
                        match close_result W (calls is_close s2) with
                        | None => lit "SSH connection closed"
                        | Some e => lit "Error closing SSH connection: " ++ exc_msg e
                        end
                      :: EvClose (calls is_new_client s + k)%nat :: trace s2) in
         match r with
         | Ret _ => s3
         | Raise e =>
             add_event
               (EvLog ERROR (lit "Critical error in main process: " ++ exc_msg e)) s3
         end).
Proof.
  intros H0 H1 Hk Hfail Hok.
  destruct (connect_loop_succeeds W k 5 1 (main_start s))
    as (s1 & Hconn & Hself1 & Hfs1 & Hn1 & Hc1); try assumption; try reflexivity;
    [intros _; apply main_retry_delay|].
  assert (Hconnect : connect W (main_start s) = (Ret tt, s1)) by exact Hconn.
  destruct (snapshot_session W host (time_now host) s1) as [r s2] eqn:Hbody.
  pose proof (snapshot_session_respects W host (time_now host) s1) as (Hself2 & _ & Hgrow).
  rewrite Hbody in Hself2, Hgrow. simpl in Hself2, Hgrow.
  exists s1, r, s2.
  repeat (split; [first [assumption | reflexivity | symmetry; assumption]|]).
  rewrite (main_after_makedirs W host s H0 H1). unfold try_except.
  rewrite (with_downloader_connected W _ _ _ Hconnect), Hbody. simpl. rewrite close_spec. simpl.
  unfold close_trace. rewrite <- Hself2, Hself1. simpl.
  destruct r as [u|e].
  - destruct (close_result W (calls is_close s2)); reflexivity.
  - rewrite isinstance_Exception. unfold bind, log, emit, raise. simpl.
    destruct (close_result W (calls is_close s2)); reflexivity.
Qed.

End MainFacts.



(** X13: when all five connection attempts fail, [main] logs the error as
    critical and raises what the fifth attempt raised; it has run no command,
    opened no SFTP channel and copied nothing, and it leaves the handle of the
    fifth attempt in [ssh_client], not closed: [__exit__] is not called when
    [__enter__] raises. *)
Theorem main_connection_failure (W : World) (host : Host) (s : State) :
  makedirs_result host 0 (path_join base_local_dir (lit "left")) = None →
  makedirs_result host 1 (path_join base_local_dir (lit "right")) = None →
  (∀ i, (i < 5)%nat → is_Some (conn_failure W (calls is_new_client s + i)%nat)) →
  let s' := snd (main W host s) in
  ∃ e,
    conn_failure W (calls is_new_client s + 4)%nat = Some e
    ∧ fst (main W host s) = Raise e
    ∧ head (trace s')
      = Some (EvLog ERROR (lit "Critical error in main process: " ++ exc_msg e))
    ∧ ssh_client (self s') = Some (calls is_new_client s + 4)%nat
    ∧ calls is_close s' = (calls is_close s + 4)%nat
    ∧ calls is_exec s' = calls is_exec s
    ∧ calls is_open_sftp s' = calls is_open_sftp s
    ∧ calls is_scp_get s' = calls is_scp_get s.
Proof.
  intros H0 H1 Hfail.
  destruct (connect_loop_exhausts W 4 1 (main_start s))
    as (e & s1 & He & Hconn & Hself1 & _ & _ & Hc1); try assumption; try reflexivity;
    [intros _; apply main_retry_delay|].
  assert (Hconnect : connect W (main_start s) = (Raise e, s1)) by exact Hconn.
  pose proof (connect_respects W (main_start s)) as (_ & _ & Hgrow).
  rewrite Hconnect in Hgrow. simpl in Hgrow.
  assert (Hcount : ∀ p, (∀ ev, connect_events ev = true → p ev = false) →
                        calls p s1 = calls p s).
  { intros p Hp. exact (grows_count connect_events p _ _ Hp Hgrow). }
  exists e. split; [exact He|].
  rewrite (main_after_makedirs W host s H0 H1). unfold try_except.
  rewrite (with_downloader_refused W _ _ _ _ Hconnect).
  rewrite isinstance_Exception. unfold bind, log, emit, raise, calls in *. simpl.
  rewrite Hself1.
  repeat split; try exact Hc1;
    apply Hcount; intros [] Hev; try discriminate Hev; reflexivity.
Qed.

Lemma main_connection_failure_witness :
  fst (main refusing quiet_host (fresh 0))
    = Raise (Exc AuthenticationException (lit "Authentication failed."))
  ∧ ssh_client (self (snd (main refusing quiet_host (fresh 0)))) = Some 4%nat.
Proof.
  destruct (main_connection_failure refusing quiet_host (fresh 0) eq_refl eq_refl)
    as (e & He & Hraise & _ & Hclient & _).
  - intros i Hi. vm_compute. eauto.
  - vm_compute in He. injection He as <-.
    split; [exact Hraise | exact Hclient].
Defined.

(** X14: when the connection is made but the snapshot command fails at all
    five attempts, [main] gives up the downloads: it raises what the fifth
    attempt raised, after logging it as critical, having opened no SFTP
    channel and copied nothing, and with the session closed. *)
Theorem main_command_failure (W : World) (host : Host) (s : State) (k : nat) :
  makedirs_result host 0 (path_join base_local_dir (lit "left")) = None →
  makedirs_result host 1 (path_join base_local_dir (lit "right")) = None →
  (k < 5)%nat →
  (∀ i, (i < k)%nat → is_Some (conn_failure W (calls is_new_client s + i)%nat)) →
  conn_failure W (calls is_new_client s + k)%nat = None →
  (∀ i, (i < 5)%nat →
     is_inl (exec_attempt (exec_result W (calls is_exec s + i)%nat))) →
  let s' := snd (main W host s) in
  ∃ e,
    exec_attempt (exec_result W (calls is_exec s + 4)%nat) = inl e
    ∧ fst (main W host s) = Raise e
    ∧ head (trace s')
      = Some (EvLog ERROR (lit "Critical error in main process: " ++ exc_msg e))
    ∧ ssh_client (self s') = None
    ∧ calls is_exec s' = (calls is_exec s + 5)%nat
    ∧ calls is_open_sftp s' = calls is_open_sftp s
    ∧ calls is_scp_get s' = calls is_scp_get s.
Proof.
  intros H0 H1 Hk Hfail Hok Hcmd.
  destruct (main_connected W host s k H0 H1 Hk Hfail Hok)
    as (s1 & r & s2 & Hconnect & Hself1 & _ & _ & _ & Hbody & _ & _ & Hmain).
  pose proof (connect_respects W (main_start s)) as (_ & _ & Hgrow1).
  rewrite Hconnect in Hgrow1. simpl in Hgrow1.
  assert (Hcount1 : ∀ p, (∀ ev, connect_events ev = true → p ev = false) →
                         calls p s1 = calls p s).
  { intros p Hp. exact (grows_count connect_events p _ _ Hp Hgrow1). }
  set (s1' := add_event (EvLog INFO (lit "Executing snapshot script...")) s1).
  assert (Hexec1 : calls is_exec s1' = calls is_exec s).
  { rewrite <- (Hcount1 is_exec); [reflexivity|].
    intros [] Hev; try discriminate Hev; reflexivity. }
  destruct (execute_loop_exhausts W (snapshot_command (time_now host))
              (calls is_new_client s + k)%nat 4 1 s1')
    as (e & s_e & He & Hloop & _ & Hexec2).
  { simpl. rewrite Hself1. reflexivity. }
  { intros _. simpl. rewrite Hself1. apply (main_retry_delay s). }
  { simpl. rewrite Hself1. reflexivity. }
  { intros i Hi. rewrite Hexec1. apply Hcmd, Hi. }
  assert (Hrun : snapshot_session W host (time_now host) s1 = (Raise e, s_e)).
  { unfold snapshot_session. unfold bind at 1. unfold log, emit. fold s1'.
    unfold bind at 1. unfold execute_command, bind, get_self.
    change (trace {| self := self s1; local_fs := local_fs s1;
                     trace := EvLog INFO (lit "Executing snapshot script...") :: trace s1 |})
      with (trace s1').
    replace (Z.to_nat (max_retries (self s1'))) with 5%nat
      by (simpl; rewrite Hself1; reflexivity).
    change (execute_loop W 5 1
              (lit "bash /home/pi/take_snap_shot.bash " ++
               str_of_int (time_now host) ++ lit " " ++ cfg_unique_id config) s1')
      with (execute_loop W 5 1 (snapshot_command (time_now host)) s1').
    rewrite Hloop. reflexivity. }
  rewrite Hrun in Hbody. injection Hbody as <- <-.
  pose proof (execute_command_respects W (snapshot_command (time_now host)) s1')
    as (_ & _ & Hgrow2).
  assert (Hloop' : execute_command W (snapshot_command (time_now host)) s1'
                   = (Raise e, s_e)).
  { unfold execute_command, bind, get_self.
    replace (Z.to_nat (max_retries (self s1'))) with 5%nat
      by (simpl; rewrite Hself1; reflexivity).
    exact Hloop. }
  rewrite Hloop' in Hgrow2. simpl in Hgrow2.
  assert (Hcount2 : ∀ p, (∀ ev, command_events (snapshot_command (time_now host)) ev
                                 = true → p ev = false) →
                         calls p s_e = calls p s1').
  { intros p Hp. exact (grows_count _ p _ _ Hp Hgrow2). }
  exists e. rewrite Hexec1 in He, Hexec2. split; [exact He|].
  rewrite Hmain. unfold calls in *. simpl.
  repeat split.
  - rewrite Hexec2. reflexivity.
  - rewrite (Hcount2 is_open_sftp), <- (Hcount1 is_open_sftp); try reflexivity;
      intros [] Hev; try discriminate Hev; reflexivity.
  - rewrite (Hcount2 is_scp_get), <- (Hcount1 is_scp_get); try reflexivity;
      intros [] Hev; try discriminate Hev; reflexivity.
Qed.

Lemma main_command_failure_witness :
  fst (main failing quiet_host (fresh 0))
    = Raise (Exc Exception_ (lit "Command failed with exit status 1"))
  ∧ ssh_client (self (snd (main failing quiet_host (fresh 0)))) = None
  ∧ calls is_scp_get (snd (main failing quiet_host (fresh 0))) = O.
Proof.
  destruct (main_command_failure failing quiet_host (fresh 0) 0 eq_refl eq_refl)
    as (e & He & Hraise & _ & Hclient & _ & _ & Hscp).
  - repeat constructor.
  - intros i Hi. exfalso. lia.
  - reflexivity.
  - intros i Hi. vm_compute. exact I.
  - vm_compute in He. injection He as <-.
    split; [exact Hraise | split; [exact Hclient | exact Hscp]].
Defined.

Section MissingFiles.

Variable W : World.
Hypothesis stats_fail : ∀ n p, is_inl (stat_result W n p).




End MissingFiles.



(** ** Where main puts the files *)

Section Paths.

Local Transparent lit str_of_int.

Lemma lit_cons c s : lit (String c s) = N_of_ascii c :: lit s.
Proof. reflexivity. Qed.

Lemma pretty_N_char_no_sep x : N_of_ascii (pretty_N_char x) ≠ sep.
Proof. unfold pretty_N_char. repeat case_match; discriminate. Qed.

Lemma pretty_N_go_no_sep x : ∀ s, sep ∉ lit s → sep ∉ lit (pretty_N_go x s).
Proof.
  induction (N.lt_wf_0 x) as [x _ IH]; intros s Hs.
  assert (x = 0 ∨ 0 < x)%N as [->|Hx] by lia.
  - rewrite pretty_N_go_0. exact Hs.
  - rewrite pretty_N_go_step by exact Hx. apply IH.
    + apply N.div_lt; [exact Hx | reflexivity].
    + rewrite lit_cons. intros [Heq|Hin]%elem_of_cons.
      * exact (pretty_N_char_no_sep _ (eq_sym Heq)).
      * exact (Hs Hin).
Qed.

Lemma pretty_N_no_sep (x : N) : sep ∉ lit (pretty x).
Proof.
  unfold pretty, pretty_N. case_decide.
  - vm_compute. intros Hin.
    repeat (apply elem_of_cons in Hin as [Hin|Hin]; [discriminate Hin|]).
    inversion Hin.
  - apply pretty_N_go_no_sep. intros Hin. inversion Hin.
Qed.

(** [str(n)] holds no separator. *)
Lemma str_of_int_no_sep (n : Z) : sep ∉ str_of_int n.
Proof.
  unfold str_of_int, pretty, pretty_Z. destruct n as [|x|x].
  - vm_compute. intros Hin.
    repeat (apply elem_of_cons in Hin as [Hin|Hin]; [discriminate Hin|]).
    inversion Hin.
  - apply pretty_N_no_sep.
  - change (lit ("-" +:+ pretty x)) with (45%N :: lit (pretty (N.pos x))).
    intros [Heq|Hin]%elem_of_cons; [discriminate Heq|].
    exact (pretty_N_no_sep _ Hin).
Qed.

End Paths.

(** [basename] of a path is what follows its last separator. *)
Lemma basename_after_sep (p f : Text) : sep ∉ f → basename (p ++ sep :: f) = f.
Proof.
  intros Hf. induction p as [|c p IH]; simpl.
  - rewrite bool_decide_eq_false_2 by exact Hf. reflexivity.
  - rewrite bool_decide_eq_true_2 by set_solver. exact IH.
Qed.

Lemma path_join_relative (a b : Text) :
  head b ≠ Some sep → a ≠ [] → last a ≠ Some sep →
  path_join a b = a ++ sep :: b.
Proof.
  intros Hb Ha Hl. unfold path_join.
  rewrite !bool_decide_eq_false_2 by assumption. reflexivity.
Qed.

Lemma app_sep_inj (a b x y : Text) :
  sep ∉ a → sep ∉ b → a ++ sep :: x = b ++ sep :: y → a = b.
Proof.
  revert b. induction a as [|c a IH]; intros [|d b] Ha Hb Heq; simpl in Heq.
  - reflexivity.
  - injection Heq as <- _. exfalso. apply Hb. left.
  - injection Heq as -> _. exfalso. apply Ha. left.
  - injection Heq as -> Heq. f_equal. apply IH; [set_solver | set_solver | exact Heq].
Qed.

Section MainPaths.

Local Transparent lit.

(** The name [main] gives the image of [side] taken at [epoch]. *)
Lemma image_name_no_sep epoch side :
  sep ∉ side →
  sep ∉ cfg_unique_id config ++ lit "_" ++ str_of_int epoch ++ lit "_" ++ side
        ++ lit ".jpg".
Proof.
  intros Hside Hin.
  pose proof (str_of_int_no_sep epoch) as Hepoch.
  repeat (apply elem_of_app in Hin as [Hin|Hin]); try contradiction;
    vm_compute in Hin;
    repeat (apply elem_of_cons in Hin as [Hin|Hin]; [discriminate Hin|]);
    inversion Hin.
Qed.

Lemma base_local_dir_value :
  base_local_dir = lit "./downloaded_images/v0.1/C250416_v0.1".
Proof. vm_compute. reflexivity. Qed.

Lemma last_no_sep (t : Text) : sep ∉ t → last t ≠ Some sep.
Proof.
  intros Ht Hlast. apply Ht. apply last_Some in Hlast as [t' ->]. set_solver.
Qed.

Lemma head_no_sep (t : Text) : sep ∉ t → head t ≠ Some sep.
Proof.
  intros Ht Hhead. apply Ht. destruct t as [|c t]; [discriminate|].
  injection Hhead as ->. left.
Qed.

Lemma remote_file_basename epoch side :
  sep ∉ side →
  basename (remote_file_of epoch side)
  = cfg_unique_id config ++ lit "_" ++ str_of_int epoch ++ lit "_" ++ side
    ++ lit ".jpg".
Proof.
  intros Hside.
  replace (remote_file_of epoch side)
    with ((lit "/home/pi/" ++ cfg_unique_id config ++ lit "/" ++ side) ++ sep
          :: (cfg_unique_id config ++ lit "_" ++ str_of_int epoch ++ lit "_" ++ side
              ++ lit ".jpg"))
    by (unfold remote_file_of; cbv zeta; rewrite <- !app_assoc; reflexivity).
  apply basename_after_sep, image_name_no_sep, Hside.
Qed.

Lemma local_file_of_value epoch side :
  side ≠ [] → sep ∉ side →
  local_file_of epoch side
  = (base_local_dir ++ sep :: side) ++ sep
    :: (cfg_unique_id config ++ lit "_" ++ str_of_int epoch ++ lit "_" ++ side
        ++ lit ".jpg").
Proof.
  intros Hne Hside. unfold local_file_of. cbv zeta.
  rewrite (remote_file_basename epoch side Hside).
  rewrite (path_join_relative base_local_dir side);
    [|apply head_no_sep, Hside | discriminate | vm_compute; discriminate].
  apply path_join_relative.
  - apply head_no_sep, image_name_no_sep, Hside.
  - destruct base_local_dir; discriminate.
  - rewrite last_app_cons. destruct side as [|c side]; [contradiction|].
    rewrite last_cons_cons. apply last_no_sep, Hside.
Qed.

Lemma local_file_of_inj epoch side side' :
  side ≠ [] → sep ∉ side → side' ≠ [] → sep ∉ side' →
  local_file_of epoch side' = local_file_of epoch side → side' = side.
Proof.
  intros Hne Hsep Hne' Hsep' Heq.
  rewrite (local_file_of_value epoch side Hne Hsep),
    (local_file_of_value epoch side' Hne' Hsep') in Heq.
  rewrite <- !app_assoc in Heq. apply app_inv_head in Heq.
  injection Heq as Heq. exact (app_sep_inj _ _ _ _ Hsep' Hsep Heq).
Qed.




(** X16: for every epoch and every side whose name is not empty and holds
    no separator -- as [left] and [right] --, [main] stores the image under
    the name of the remote file, in the directory of that side below
    [./downloaded_images/v0.1/C250416_v0.1]; and two different sides never
    share a local file. *)
Theorem main_local_paths (epoch : Z) (side : Text) :
  side ≠ [] →
  sep ∉ side →
  let name :=
    lit "C250416_v0.1_" ++ str_of_int epoch ++ lit "_" ++ side ++ lit ".jpg" in
  basename (remote_file_of epoch side) = name
  ∧ local_file_of epoch side
    = lit "./downloaded_images/v0.1/C250416_v0.1/" ++ side ++ lit "/" ++ name
  ∧ basename (local_file_of epoch side) = name
  ∧ (∀ side', side' ≠ [] → sep ∉ side' →
       local_file_of epoch side' = local_file_of epoch side → side' = side).
Proof.
  intros Hne Hsep name.
  assert (Hnm : name = cfg_unique_id config ++ lit "_" ++ str_of_int epoch ++ lit "_"
                       ++ side ++ lit ".jpg") by reflexivity.
  rewrite Hnm. repeat split.
  - apply remote_file_basename, Hsep.
  - rewrite (local_file_of_value epoch side Hne Hsep), base_local_dir_value.
    rewrite <- !app_assoc. reflexivity.
  - rewrite (local_file_of_value epoch side Hne Hsep).
    apply basename_after_sep, image_name_no_sep, Hsep.
  - intros side' Hne' Hsep'. apply local_file_of_inj; assumption.
Qed.

End MainPaths.

(** The two sides of [main] at epoch 1700000000. *)
Lemma main_local_paths_witness :
  local_file_of 1700000000 (lit "left")
    = lit "./downloaded_images/v0.1/C250416_v0.1/left/C250416_v0.1_1700000000_left.jpg"
  ∧ basename (remote_file_of 1700000000 (lit "right"))
    = lit "C250416_v0.1_1700000000_right.jpg".
Proof.
  assert (Hleft : sep ∉ lit "left")
    by (vm_compute; intros Hin;
        repeat (apply elem_of_cons in Hin as [Hin|Hin]; [discriminate Hin|]);
        inversion Hin).
  assert (Hright : sep ∉ lit "right")
    by (vm_compute; intros Hin;
        repeat (apply elem_of_cons in Hin as [Hin|Hin]; [discriminate Hin|]);
        inversion Hin).
  split.
  - destruct (main_local_paths 1700000000 (lit "left") ltac:(discriminate) Hleft)
      as (_ & H2 & _).
    rewrite H2. vm_compute. reflexivity.
  - destruct (main_local_paths 1700000000 (lit "right") ltac:(discriminate) Hright)
      as (H1 & _).
    rewrite H1. vm_compute. reflexivity.
Defined.

(** ** A download that succeeds after retries *)

Section DownloadRetry.

Variable W : World.


End DownloadRetry.



(** ** Which handles connect closes *)

Section Closed.

Variable W : World.

Lemma connect_iter_closed a s :
  (is_Some (conn_failure W (calls is_new_client s)) →
   a ≠ max_retries (self s) → sleepable (retry_delay (self s))) →
  closed (trace (snd (connect_iter W a s)))
  = (match conn_failure W (calls is_new_client s) with
     | Some _ => if a =? max_retries (self s) then [] else [calls is_new_client s]
     | None => []
     end) ++ closed (trace s).
Proof.
  unfold conn_failure, connect_iter, connect_try, new_client, load_system_host_keys,
    set_missing_host_key_policy, client_connect, calls.
  destruct s as [me fs tr]; simpl. intros Hdelay. run.
  destruct (load_keys_result W (count_ev is_new_client tr)) as [e|] eqn:Hload;
    rewrite ?Hload in Hdelay; run.
  - rewrite isinstance_Exception. run. destruct (a =? max_retries me) eqn:Hlast; run;
      [reflexivity|].
    rewrite (sleep_sleepable W _ _ (Hdelay (mk_is_Some _ _ eq_refl) (proj1 (Z.eqb_neq _ _) Hlast))). run.
    rewrite close_spec. simpl. unfold close_trace, calls. simpl.
    destruct (close_result W (count_ev is_close tr)); reflexivity.
  - destruct (connect_result W (count_ev is_new_client tr)) as [e|] eqn:Hconn;
      rewrite ?Hconn in Hdelay; run; [|reflexivity].
    rewrite isinstance_Exception. run. destruct (a =? max_retries me) eqn:Hlast; run;
      [reflexivity|].
    rewrite (sleep_sleepable W _ _ (Hdelay (mk_is_Some _ _ eq_refl) (proj1 (Z.eqb_neq _ _) Hlast))). run.
    rewrite close_spec. simpl. unfold close_trace, calls. simpl.
    destruct (close_result W (count_ev is_close tr)); reflexivity.
Qed.

Lemma reverse_seq_S (h k : nat) :
  reverse (seq (S h) k) ++ [h] = reverse (seq h (S k)).
Proof. simpl. rewrite reverse_cons. reflexivity. Qed.

Lemma connect_loop_succeeds_closed k : ∀ n a s,
  (k < n)%nat →
  a + Z.of_nat n = max_retries (self s) + 1 →
  ((0 < k)%nat → sleepable (retry_delay (self s))) →
  (∀ i, (i < k)%nat → is_Some (conn_failure W (calls is_new_client s + i)%nat)) →
  conn_failure W (calls is_new_client s + k)%nat = None →
  closed (trace (snd (connect_loop W n a s)))
  = reverse (seq (calls is_new_client s) k) ++ closed (trace s).
Proof.
  induction k as [|k IH]; intros n a s Hk Ha Hdelay Hfail Hok;
    (destruct n as [|n]; [lia|]); simpl connect_loop; unfold bind;
    (assert (Hcl := connect_iter_closed a s);
     specialize (Hcl ltac:(intros [e0 He0] _;
                            first [ apply Hdelay; lia
                                  | exfalso; rewrite Nat.add_0_r in Hok;
                                    congruence ]))).
  - rewrite Nat.add_0_r in Hok. rewrite Hok in Hcl.
    destruct (connect_iter_ok W a s Hok) as (s' & Hrun & _).
    rewrite Hrun in Hcl |- *. exact Hcl.
  - destruct (Hfail O ltac:(lia)) as [e He]. rewrite Nat.add_0_r in He.
    rewrite He in Hcl.
    replace (a =? max_retries (self s)) with false in Hcl
      by (symmetry; apply Z.eqb_neq; lia).
    destruct (connect_iter_retry W a s e He ltac:(lia) (Hdelay ltac:(lia)))
      as (s' & Hrun & Hself & _ & Hn & _).
    rewrite Hrun in Hcl |- *. simpl in Hcl.
    rewrite (IH n (a + 1) s'), Hcl, Hn.
    + rewrite <- reverse_seq_S, <- app_assoc. reflexivity.
    + lia.
    + rewrite Hself, max_retries_with_client. lia.
    + intros _. rewrite Hself, retry_delay_with_client. apply Hdelay. lia.
    + intros i Hi. rewrite Hn.
      replace (S (calls is_new_client s) + i)%nat
        with (calls is_new_client s + S i)%nat by lia.
      apply Hfail. lia.
    + rewrite Hn.
      replace (S (calls is_new_client s) + k)%nat
        with (calls is_new_client s + S k)%nat by lia.
      exact Hok.
Qed.

Lemma connect_loop_exhausts_closed n : ∀ a s,
  a + Z.of_nat (S n) = max_retries (self s) + 1 →
  ((0 < n)%nat → sleepable (retry_delay (self s))) →
  (∀ i, (i < S n)%nat → is_Some (conn_failure W (calls is_new_client s + i)%nat)) →
  closed (trace (snd (connect_loop W (S n) a s)))
  = reverse (seq (calls is_new_client s) n) ++ closed (trace s).
Proof.
  induction n as [|n IH]; intros a s Ha Hdelay Hfail;
    destruct (Hfail O ltac:(lia)) as [e He]; rewrite Nat.add_0_r in He;
    (assert (Hcl := connect_iter_closed a s);
     specialize (Hcl ltac:(intros _ Hne; apply Hdelay; lia))); rewrite He in Hcl.
  - replace (a =? max_retries (self s)) with true in Hcl
      by (symmetry; apply Z.eqb_eq; lia).
    destruct (connect_iter_last W a s e He ltac:(lia)) as (s' & Hrun & _).
    simpl connect_loop. unfold bind. rewrite Hrun in Hcl |- *. exact Hcl.
  - replace (a =? max_retries (self s)) with false in Hcl
      by (symmetry; apply Z.eqb_neq; lia).
    destruct (connect_iter_retry W a s e He ltac:(lia) (Hdelay ltac:(lia)))
      as (s' & Hrun & Hself & _ & Hn & _).
    change (connect_loop W (S (S n)) a s)
      with (bind (connect_iter W a) (fun r => match r with
              | Some _ => ret tt
              | None => connect_loop W (S n) (a + 1) end) s).
    unfold bind at 1. rewrite Hrun in Hcl |- *. simpl in Hcl.
    rewrite (IH (a + 1) s'), Hcl, Hn.
    + rewrite <- reverse_seq_S, <- app_assoc. reflexivity.
    + rewrite Hself, max_retries_with_client. lia.
    + intros _. rewrite Hself, retry_delay_with_client. apply Hdelay. lia.
    + intros i Hi. rewrite Hn.
      replace (S (calls is_new_client s) + i)%nat
        with (calls is_new_client s + S i)%nat by lia.
      apply Hfail. lia.
Qed.

End Closed.

(** X18: when [retry_delay] is a delay that [time.sleep] takes, [connect]
    closes exactly the handles of its own failed attempts that are retried,
    each once and before the next attempt, and no other handle.  So a handle
    the session already held when [connect] was called is replaced without
    being closed, and the handle of a final failed attempt is not closed
    either. *)
Theorem connect_closes_only_retried_handles (W : World) (s : State) (N : nat) :
  max_retries (self s) = Z.of_nat N →
  (1 ≤ N)%nat →
  sleepable (retry_delay (self s)) →
  let h0 := calls is_new_client s in
  ((∀ i, (i < N)%nat → is_Some (conn_failure W (h0 + i)%nat)) →
     closed (trace (snd (connect W s)))
     = reverse (seq h0 (N - 1)) ++ closed (trace s))
  ∧ (∀ k, (1 ≤ k ≤ N)%nat →
       (∀ i, (i < k - 1)%nat → is_Some (conn_failure W (h0 + i)%nat)) →
       conn_failure W (h0 + (k - 1))%nat = None →
       closed (trace (snd (connect W s)))
       = reverse (seq h0 (k - 1)) ++ closed (trace s)).
Proof.
  intros HN Hpos Hdelay h0. unfold connect, bind, get_self. simpl.
  rewrite HN, Nat2Z.id. split.
  - intros Hfail. destruct N as [|n]; [lia|].
    replace (S n - 1)%nat with n by lia.
    apply connect_loop_exhausts_closed; [lia | intros _; exact Hdelay | exact Hfail].
  - intros k Hk Hfail Hok.
    apply connect_loop_succeeds_closed; try assumption; try lia.
    intros _; exact Hdelay.
Qed.

(** A session holding handle 0 connects again: the new handle 1 is in place
    and handle 0 was not closed.  A fresh session refused three times closes
    handles 0 and 1, not handle 2. *)
Lemma connect_closes_only_retried_handles_witness :
  closed (trace (snd (connect calm (connected 3)))) = []
  ∧ ssh_client (self (snd (connect calm (connected 3)))) = Some 1%nat
  ∧ closed (trace (snd (connect refusing (fresh 3)))) = [1%nat; 0%nat].
Proof.
  split; [|split].
  - refine (proj2 (connect_closes_only_retried_handles calm (connected 3) 3 eq_refl
                     _ _) 1%nat _ _ _).
    + repeat constructor.
    + unfold sleepable, sleep_safe. simpl. lia.
    + split; repeat constructor.
    + intros i Hi. exfalso. simpl in Hi. lia.
    + reflexivity.
  - vm_compute. reflexivity.
  - refine (proj1 (connect_closes_only_retried_handles refusing (fresh 3) 3 eq_refl
                     _ _) _).
    + repeat constructor.
    + unfold sleepable, sleep_safe. simpl. lia.
    + intros i Hi. vm_compute. eauto.
Defined.

(** ** A delay that time.sleep refuses *)

Section RefusedDelay.

Variable W : World.

Lemma connect_iter_refused_delay a s :
  is_Some (conn_failure W (calls is_new_client s)) →
  a ≠ max_retries (self s) →
  - sleep_safe ≤ retry_delay (self s) < 0 →
  ∃ s', connect_iter W a s = (Raise negative_sleep, s')
        ∧ self s' = with_client (Some (calls is_new_client s)) (self s)
        ∧ calls is_new_client s' = S (calls is_new_client s)
        ∧ calls is_close s' = calls is_close s
        ∧ calls is_sleep s' = calls is_sleep s.
Proof.
  unfold conn_failure, connect_iter, connect_try, new_client, load_system_host_keys,
    set_missing_host_key_policy, client_connect, calls.
  destruct s as [me fs tr]; simpl. intros [e H] Ha Hdelay.
  apply Z.eqb_neq in Ha. run.
  destruct (load_keys_result W (count_ev is_new_client tr)) as [e1|].
  - run. rewrite isinstance_Exception. run. rewrite Ha. run.
    rewrite (sleep_negative W _ _ Hdelay).
    eexists; split; [reflexivity|]. simpl. auto.
  - run. rewrite H. run. rewrite isinstance_Exception. run. rewrite Ha. run.
    rewrite (sleep_negative W _ _ Hdelay).
    eexists; split; [reflexivity|]. simpl. auto.
Qed.

Lemma execute_iter_refused_delay a cmd s h :
  ssh_client (self s) = Some h →
  is_inl (exec_attempt (exec_result W (calls is_exec s))) →
  a ≠ max_retries (self s) →
  - sleep_safe ≤ retry_delay (self s) < 0 →
  ∃ s', execute_iter W a cmd s = (Raise negative_sleep, s')
        ∧ calls is_exec s' = S (calls is_exec s)
        ∧ calls is_sleep s' = calls is_sleep s.
Proof.
  unfold exec_attempt, execute_iter, execute_try, exec_command, calls.
  destruct s as [me fs tr]; simpl. intros Hh He Ha Hdelay. revert He.
  apply Z.eqb_neq in Ha.
  run. rewrite Hh. run.
  destruct (exec_result W (count_ev is_exec tr)) as [c st err out]; simpl.
  assert (Hend : ∀ s0 : State, self s0 = me →
            sleep W (retry_delay me) s0 = (Raise negative_sleep, s0)).
  { intros s0 _. apply sleep_negative. exact Hdelay. }
  destruct c as [e1|]; [intros _; run; rewrite ?isinstance_Exception; run;
    rewrite Ha; run; rewrite Hend by reflexivity;
    eexists; (split; [reflexivity|]); simpl; split; reflexivity|].
  destruct st as [e1|st]; [intros _; run; rewrite ?isinstance_Exception; run;
    rewrite Ha; run; rewrite Hend by reflexivity;
    eexists; (split; [reflexivity|]); simpl; split; reflexivity|].
  destruct err as [e1|err]; [intros _; run; rewrite ?isinstance_Exception; run;
    rewrite Ha; run; rewrite Hend by reflexivity;
    eexists; (split; [reflexivity|]); simpl; split; reflexivity|].
  run.
  destruct (st =? 0) eqn:Hst.
  - destruct out as [e1|out]; [|intros []]. intros _.
    destruct (nonempty (strip err)); run;
      rewrite ?isinstance_Exception; run;
      rewrite Ha; run; rewrite Hend by reflexivity;
      eexists; (split; [reflexivity|]); simpl; split; reflexivity.
  - intros _.
    destruct (nonempty (strip err)); run;
      rewrite ?isinstance_Exception; run;
      rewrite Ha; run; rewrite Hend by reflexivity;
      eexists; (split; [reflexivity|]); simpl; split; reflexivity.
Qed.

Lemma download_iter_refused_delay a r l s :
  attempt_outcome W r l s ≠ Verified →
  a ≠ max_retries (self s) →
  - sleep_safe ≤ retry_delay (self s) < 0 →
  ∃ s', download_iter W a r l s = (Raise negative_sleep, s')
        ∧ (calls is_scp_get s' ≤ S (calls is_scp_get s))%nat
        ∧ calls is_sleep s' = calls is_sleep s.
Proof.
  intros Hnv Ha Hdelay. unfold download_iter, download_try, try_except2, bind.
  destruct (download_attempt_result W a r l s)
    as (s' & -> & Hself & Hscp & Hsl & _).
  apply Z.eqb_neq in Ha. rewrite <- Hself in Ha, Hdelay.
  destruct (attempt_outcome W r l s) as [| |e]; simpl; [congruence| |].
  - unfold get_self, ret. rewrite Ha, (sleep_negative W _ _ Hdelay).
    change (isinstance negative_sleep SCPException) with false.
    rewrite isinstance_Exception.
    unfold log, emit, raise. simpl. rewrite Ha.
    rewrite (sleep_negative W _ _ Hdelay).
    eexists; (split; [reflexivity|]); simpl. split; [exact Hscp | exact Hsl].
  - rewrite isinstance_Exception.
    unfold get_self, log, emit, ret, raise; simpl.
    destruct (isinstance e SCPException); rewrite Ha;
      rewrite (sleep_negative W _ _ Hdelay);
      eexists; (split; [reflexivity|]); simpl; (split; [exact Hscp | exact Hsl]).
Qed.

End RefusedDelay.

(** X22: a negative [retry_delay] ends the retrying.  [__init__] takes any
    number as [retry_delay]; [time.sleep] raises [ValueError] for a negative
    one.  With more than one attempt allowed and such a delay (no further
    below zero than [sleep_safe]), the first attempt that fails is the last:
    [connect], [execute_command] and [download_file] raise that [ValueError]
    instead of trying again, after one connection, one command, at most one
    copy, and without having slept.  [connect] leaves the handle of the
    failed attempt in [ssh_client], not closed. *)
Theorem negative_retry_delay_ends_retrying (W : World) (s : State) :
  1 < max_retries (self s) →
  - sleep_safe ≤ retry_delay (self s) < 0 →
  (is_Some (conn_failure W (calls is_new_client s)) →
   let s' := snd (connect W s) in
   fst (connect W s) = Raise negative_sleep
   ∧ calls is_new_client s' = S (calls is_new_client s)
   ∧ ssh_client (self s') = Some (calls is_new_client s)
   ∧ calls is_close s' = calls is_close s
   ∧ calls is_sleep s' = calls is_sleep s)
  ∧ (∀ cmd h,
       ssh_client (self s) = Some h →
       is_inl (exec_attempt (exec_result W (calls is_exec s))) →
       let s' := snd (execute_command W cmd s) in
       fst (execute_command W cmd s) = Raise negative_sleep
       ∧ calls is_exec s' = S (calls is_exec s)
       ∧ calls is_sleep s' = calls is_sleep s)
  ∧ (∀ r l,
       fst (remote_file_exists W r s) = Ret true →
       attempt_outcome W r l (snd (remote_file_exists W r s)) ≠ Verified →
       let s' := snd (download_file W r l s) in
       fst (download_file W r l s) = Raise negative_sleep
       ∧ (calls is_scp_get s' ≤ S (calls is_scp_get s))%nat
       ∧ calls is_sleep s' = calls is_sleep s).
Proof.
  intros Hmax Hdelay.
  assert (Hn : ∃ n, Z.to_nat (max_retries (self s)) = S n).
  { exists (Z.to_nat (max_retries (self s)) - 1)%nat. lia. }
  destruct Hn as (n & Hn).
  split; [|split].
  - intros Hfail.
    destruct (connect_iter_refused_delay W 1 s Hfail)
      as (s' & Hiter & Hself & Hc & Hcl & Hsl); [lia | exact Hdelay |].
    assert (Hrun : connect W s = (Raise negative_sleep, s')).
    { unfold connect, bind, get_self. simpl. rewrite Hn. simpl. unfold bind.
      rewrite Hiter. reflexivity. }
    cbv zeta. rewrite Hrun. simpl. rewrite Hself.
    split; [reflexivity|]. split; [exact Hc|].
    split; [destruct (self s); reflexivity|]. split; [exact Hcl | exact Hsl].
  - intros cmd h Hh Hfail.
    destruct (execute_iter_refused_delay W 1 cmd s h Hh Hfail)
      as (s' & Hiter & Hex & Hsl); [lia | exact Hdelay |].
    assert (Hrun : execute_command W cmd s = (Raise negative_sleep, s')).
    { unfold execute_command, bind, get_self. simpl. rewrite Hn. simpl. unfold bind.
      rewrite Hiter. reflexivity. }
    cbv zeta. rewrite Hrun. simpl.
    split; [reflexivity|]. split; [exact Hex | exact Hsl].
  - intros r l Hex Hnv.
    destruct (remote_file_exists_result W r s)
      as (s0 & Hrun & Hself & _ & Hscp0 & Hsl0 & _).
    rewrite Hrun in Hex, Hnv. injection Hex as Hex. simpl in Hnv.
    destruct (download_iter_refused_delay W 1 r l s0 Hnv)
      as (s' & Hiter & Hscp & Hsl); [rewrite Hself; lia | rewrite Hself; exact Hdelay |].
    assert (Hfile : download_file W r l s = (Raise negative_sleep, s')).
    { rewrite (download_file_passes W r l s Hex), Hrun. simpl.
      rewrite Hn. simpl. unfold bind. rewrite Hiter. reflexivity. }
    cbv zeta. rewrite Hfile. simpl.
    split; [reflexivity|]. split; [lia | congruence].
Qed.

(** Three attempts allowed and [retry_delay = -1]: a refused connection, a
    failing command and a copy that drops are each tried once. *)
Lemma negative_retry_delay_ends_retrying_witness :
  fst (connect refusing (hasty 3)) = Raise negative_sleep
  ∧ calls is_new_client (snd (connect refusing (hasty 3))) = 1%nat
  ∧ fst (execute_command failing (lit "false") (hasty_connected 3))
    = Raise negative_sleep
  ∧ fst (download_file dropping remote_jpg local_jpg (hasty_connected 3))
    = Raise negative_sleep.
Proof.
  assert (Hmax : 1 < 3) by lia.
  assert (Hdelay : - sleep_safe ≤ -1 < 0) by (unfold sleep_safe; lia).
  split; [|split; [|split]].
  - destruct (proj1 (negative_retry_delay_ends_retrying refusing (hasty 3) Hmax Hdelay))
      as (Hret & _); [vm_compute; eauto | exact Hret].
  - destruct (proj1 (negative_retry_delay_ends_retrying refusing (hasty 3) Hmax Hdelay))
      as (_ & Hc & _); [vm_compute; eauto | exact Hc].
  - destruct (proj1 (proj2 (negative_retry_delay_ends_retrying failing
                              (hasty_connected 3) Hmax Hdelay))
                (lit "false") O eq_refl) as (Hret & _);
      [vm_compute; exact I | exact Hret].
  - destruct (proj2 (proj2 (negative_retry_delay_ends_retrying dropping
                              (hasty_connected 3) Hmax Hdelay))
                remote_jpg local_jpg) as (Hret & _);
      [reflexivity | vm_compute; discriminate | exact Hret].
Defined.

(** ** The downloads of main *)

Section MainDownloads.

Variable W : World.





Variable file : SFTPAttributes.

(** The remote side behaves: channels open and close, the file is a regular
    one, and a copy delivers all of its bytes. *)
Hypothesis sftp_opens : ∀ n, open_sftp_result W n = None.
Hypothesis regular : S_ISREG (st_mode file) = true.
Hypothesis sftp_closes : ∀ n, sftp_close_result W n = None.
Hypothesis scp_whole : ∀ n, scp_result W n = mkScp (Some (st_size file)) None.





End MainDownloads.






